(** * mem0-go: the options encoder, the filter normalizer and the request
    dispatch of the Mem0 client, embedded from [types/mem0.go] and the client
    package.

    Go strings are byte strings: they are [string]s, whose characters are the
    256 [ascii] bytes.  Go maps with string keys are [gmap string _]; a nil map
    is [None].  A slice field of a struct is a list, and the nil slice is the
    empty list: the code treats the two alike.  Integers carry no arithmetic
    in this code, so they are [Z].  What the Go standard library decides (URL
    escaping, struct tags, the JSON encoding of a struct) is written out next
    to the code that calls it. *)

From stdpp Require Import gmap strings list fin_maps pretty sorting.
From Stdlib Require Import ZArith Ascii.

Set Warnings "-register-all".

(** ** Values *)

(** A [float64], as far as this code looks at it: [reflect]'s zero test,
    whether [encoding/json] accepts it (it rejects NaN and the infinities) and
    the text [strconv.FormatFloat(f, 'f', -1, 64)] prints. *)
Record float64 := Float64 {
  float_IsZero : bool;
  float_IsFinite : bool;
  FormatFloat : string
}.

(** A [time.Time], as far as this code looks at it: [reflect]'s zero test and
    its [Format(time.RFC3339)] text. *)
Record Time := MkTime {
  time_IsZero : bool;
  time_RFC3339 : string
}.

(** [any]: the values held in a [map[string]any] or a [map[string]interface{}].
    A value stands for its JSON image, so that a Go [int] and the [float64] it
    decodes to after a trip through [encoding/json] are the same [AInt] (the
    trip rounds an integer beyond 2^53; the model keeps it exact).
    [AUnsupported] is a value [json.Marshal] refuses (a channel, a function). *)
Inductive any : Type :=
| ANil
| ABool (b : bool)
| AString (s : string)
| AInt (z : Z)
| AFloat (f : float64)
| ASlice (l : list any)
| AMap (m : gmap string any)
| AUnsupported.

Definition is_nil (a : any) : bool :=
  match a with ANil => true | _ => false end.

(** Whether [json.Marshal] succeeds on a value. *)
Fixpoint supported (a : any) : bool :=
  match a with
  | AUnsupported => false
  | AFloat f => float_IsFinite f
  | ASlice l => forallb supported l
  | AMap m => map_fold (λ _ v acc, supported v && acc) true m
  | _ => true
  end.

(** ** types/mem0.go *)

Definition V1 : string := "v1".
Definition V2 : string := "v2".
Definition DefaultAPIVersion : string := V2.

Definition IsDefault (v : string) : bool :=
  String.eqb v DefaultAPIVersion || String.eqb v "".

Definition SearchWildcard : string := "*".

Record Message := MkMessage { Role : string; Content : string }.

Record CustomCategory := MkCustomCategory {
  CategoryName : string;
  CategoryDescription : string
}.

Module MemoryOptions.
Record t := mk {
  APIVersion : string;
  Version : string;
  UserID : string;
  AgentID : string;
  AppID : string;
  RunID : string;
  Timestamp : Z;
  Metadata : option (gmap string any);
  Filters : option (gmap string any);
  OrgID : string;
  ProjectID : string;
  Infer : bool;
  Page : Z;
  PageSize : Z;
  Includes : string;
  Excludes : string;
  EnableGraph : bool;
  StartDate : string;
  EndDate : string;
  CustomCategories : list CustomCategory;
  CustomInstructions : string;
  Messages : list Message
}.

(** [types.MemoryOptions{}] *)
Definition zero : t :=
  mk "" "" "" "" "" "" 0 None None "" "" false 0 0 "" "" false "" "" [] "" [].
End MemoryOptions.

Module SearchOptions.
Record t := mk {
  MemoryOptions : MemoryOptions.t;
  EnableGraph : bool;
  Threshold : float64;
  TopK : Z;
  OnlyMetadataBasedSearch : bool;
  KeywordSearch : bool;
  Fields : list string;
  Categories : list string;
  Rerank : bool;
  Version : string
}.
End SearchOptions.

Module ProjectOptions.
Record t := mk { Fields : list string }.
End ProjectOptions.

(** ** net/url: query escaping, [Values.Encode], [ParseQuery] *)

Definition in_range (lo hi : N) (c : ascii) : bool :=
  let n := N_of_ascii c in (lo <=? n)%N && (n <=? hi)%N.

(** [shouldEscape(c, encodeQueryComponent)]: everything but the unreserved
    characters is escaped. *)
Definition shouldEscape (c : ascii) : bool :=
  if in_range 97 122 c || in_range 65 90 c || in_range 48 57 c then false
  else if Ascii.eqb c "-" || Ascii.eqb c "_" || Ascii.eqb c "." || Ascii.eqb c "~"
  then false
  else true.

(** ["0123456789ABCDEF"[n]] *)
Definition upperhex (n : N) : ascii :=
  if (n <? 10)%N then ascii_of_N (48 + n) else ascii_of_N (55 + n).

Fixpoint QueryEscape (s : string) : string :=
  match s with
  | EmptyString => EmptyString
  | String c s' =>
      if shouldEscape c then
        if Ascii.eqb c " " then String "+" (QueryEscape s')
        else String "%" (String (upperhex (N_of_ascii c / 16))
                           (String (upperhex (N_of_ascii c mod 16)) (QueryEscape s')))
      else String c (QueryEscape s')
  end.

Definition ishex (c : ascii) : bool :=
  in_range 48 57 c || in_range 97 102 c || in_range 65 70 c.

Definition unhex (c : ascii) : N :=
  let n := N_of_ascii c in
  if in_range 48 57 c then n - 48
  else if in_range 97 102 c then n - 97 + 10
  else if in_range 65 70 c then n - 65 + 10
  else 0.

(** [None] is the [EscapeError] of a [%] that two hex digits do not follow. *)
Fixpoint QueryUnescape (s : string) : option string :=
  match s with
  | EmptyString => Some EmptyString
  | String c s' =>
      if Ascii.eqb c "%" then
        match s' with
        | String a (String b s'') =>
            if ishex a && ishex b
            then String (ascii_of_N (unhex a * 16 + unhex b)) <$> QueryUnescape s''
            else None
        | _ => None
        end
      else if Ascii.eqb c "+" then String " "%char <$> QueryUnescape s'
      else String c <$> QueryUnescape s'
  end.

(** [strings.Join] *)
Fixpoint join (sep : string) (l : list string) : string :=
  match l with
  | [] => ""
  | [x] => x
  | x :: l' => x +:+ sep +:+ join sep l'
  end.

(** [url.Values] is a [map[string][]string]; [Add] appends to the key's list. *)
Definition Values_Add (key value : string) (v : gmap string (list string))
  : gmap string (list string) :=
  <[key := v !!! key ++ [value]]> v.

Definition string_le (a b : string) : Prop := String.leb a b = true.

#[local] Instance string_le_dec a b : Decision (string_le a b).
Proof. unfold string_le. apply _. Defined.

(** The keys of the map, sorted as [slices.Sort] sorts strings (bytewise). *)
Definition sorted_keys (v : gmap string (list string)) : list string :=
  merge_sort string_le (elements (dom v)).

Definition encode_pair (k x : string) : string :=
  QueryEscape k +:+ "=" +:+ QueryEscape x.

(** [Values.Encode]: ["k=v"] pairs in key order, ['&'] between them. *)
Definition Values_Encode (v : gmap string (list string)) : string :=
  join "&" (k ← sorted_keys v; encode_pair k <$> v !!! k).

(** [strings.Cut] at a one-byte separator, without the found flag. *)
Fixpoint Cut (sep : ascii) (s : string) : string * string :=
  match s with
  | EmptyString => (EmptyString, EmptyString)
  | String c s' =>
      if Ascii.eqb c sep then (EmptyString, s')
      else let '(a, b) := Cut sep s' in (String c a, b)
  end.

Fixpoint Contains (c : ascii) (s : string) : bool :=
  match s with
  | EmptyString => false
  | String c' s' => Ascii.eqb c' c || Contains c s'
  end.

(** The pieces that the loop of [parseQuery] cuts off at each ['&']. *)
Fixpoint segments (sep : ascii) (s : string) : list string :=
  match s with
  | EmptyString => [EmptyString]
  | String c s' =>
      if Ascii.eqb c sep then EmptyString :: segments sep s'
      else match segments sep s' with
           | [] => [String c EmptyString]
           | x :: xs => String c x :: xs
           end
  end.

(** One turn of the loop of [parseQuery]; the flag is [err != nil]. *)
Definition parse_segment (acc : gmap string (list string) * bool) (seg : string)
  : gmap string (list string) * bool :=
  let '(m, err) := acc in
  if Contains ";" seg then (m, true)
  else if String.eqb seg "" then (m, err)
  else
    let '(key, value) := Cut "=" seg in
    match QueryUnescape key with
    | None => (m, true)
    | Some key =>
        match QueryUnescape value with
        | None => (m, true)
        | Some value => (<[key := m !!! key ++ [value]]> m, err)
        end
    end.

Definition ParseQuery (query : string) : gmap string (list string) * bool :=
  foldl parse_segment (∅, false) (segments "&" query).

(** ** reflect: a struct as [structToQuery] walks it *)

(** A [reflect.Value], by kind.  A nil slice or map is [None].  [RStruct] is a
    struct other than [time.Time], with the values of its fields; [ROther] is
    any kind the encoder has no case for (pointer, interface, channel), with
    its zero test. *)
Inductive rvalue : Type :=
| RString (s : string)
| RInt (z : Z)
| RUint (n : N)
| RFloat (f : float64)
| RBool (b : bool)
| RSlice (items : option (list rvalue))
| RTime (t : Time)
| RStruct (fields : list rvalue)
| RMap (m : option (gmap string any))
| ROther (zero : bool).

(** [reflect.Value.IsZero] *)
Fixpoint IsZero (v : rvalue) : bool :=
  match v with
  | RString s => String.eqb s ""
  | RInt z => (z =? 0)%Z
  | RUint n => (n =? 0)%N
  | RFloat f => float_IsZero f
  | RBool b => negb b
  | RSlice items => match items with None => true | Some _ => false end
  | RTime t => time_IsZero t
  | RStruct fields => forallb IsZero fields
  | RMap m => match m with None => true | Some _ => false end
  | ROther zero => zero
  end.

(** A struct field: its Go name, the value of [field.Tag.Get("json")] and the
    field's value. *)
Record StructField := Field {
  Name : string;
  Tag : string;
  Value : rvalue
}.

Definition FormatInt (z : Z) : string := pretty z.
Definition FormatUint (n : N) : string := pretty n.
Definition FormatBool (b : bool) : string := if b then "true" else "false".

(** The five scalar cases that the outer and the inner [switch] share. *)
Definition scalar_text (v : rvalue) : option string :=
  match v with
  | RString s => Some s
  | RInt z => Some (FormatInt z)
  | RUint n => Some (FormatUint n)
  | RFloat f => Some (FormatFloat f)
  | RBool b => Some (FormatBool b)
  | _ => None
  end.

Section Encoder.
(** [json.Marshal] to text, of a map or a struct; [None] is its error. *)
Variable json_Marshal : rvalue → option string.

(** The [switch value.Kind()] of [structToQuery]: [None] is [continue].  An
    element of a slice that is no scalar adds no item. *)
Definition field_text (v : rvalue) : option string :=
  match v with
  | RSlice items =>
      let items := default [] items in
      if (length items =? 0)%nat then None
      else Some (join "," (omap scalar_text items))
  | RTime t => Some (time_RFC3339 t)
  | RStruct _ => Some (default "" (json_Marshal v))
  | RMap m =>
      if (size (default ∅ m) =? 0)%nat then None
      else Some (default "" (json_Marshal v))
  | ROther _ => None
  | _ => scalar_text v
  end.

(** The body of the loop over the fields. *)
Definition query_step (values : gmap string (list string)) (f : StructField)
  : gmap string (list string) :=
  if IsZero (Value f) then values
  else if String.eqb (Tag f) "" || String.eqb (Tag f) "-" then values
  else match field_text (Value f) with
       | None => values
       | Some strValue => Values_Add (Tag f) strValue values
       end.

Definition query_values (fields : list StructField) : gmap string (list string) :=
  foldl query_step ∅ fields.

Definition structToQuery (fields : list StructField) : string :=
  Values_Encode (query_values fields).
End Encoder.

(** A slice field as [reflect] shows it: the empty list is the nil slice. *)
Definition rslice {A} (f : A → rvalue) (l : list A) : rvalue :=
  RSlice (match l with [] => None | _ => Some (f <$> l) end).

Definition Message_value (m : Message) : rvalue :=
  RStruct [RString (Role m); RString (Content m)].

Definition CustomCategory_value (c : CustomCategory) : rvalue :=
  RStruct [RString (CategoryName c); RString (CategoryDescription c)].

(** The fields of [MemoryOptions], in declaration order, with their tags as
    written in [types/mem0.go]. *)
Definition MemoryOptions_fields (o : MemoryOptions.t) : list StructField :=
  [ Field "APIVersion" "api_version,omitempty" (RString (MemoryOptions.APIVersion o));
    Field "Version" "version,omitempty" (RString (MemoryOptions.Version o));
    Field "UserID" "user_id,omitempty" (RString (MemoryOptions.UserID o));
    Field "AgentID" "agent_id,omitempty" (RString (MemoryOptions.AgentID o));
    Field "AppID" "app_id,omitempty" (RString (MemoryOptions.AppID o));
    Field "RunID" "run_id,omitempty" (RString (MemoryOptions.RunID o));
    Field "Timestamp" "timestamp,omitempty" (RInt (MemoryOptions.Timestamp o));
    Field "Metadata" "metadata,omitempty" (RMap (MemoryOptions.Metadata o));
    Field "Filters" "filters,omitempty" (RMap (MemoryOptions.Filters o));
    Field "OrgID" "org_id,omitempty" (RString (MemoryOptions.OrgID o));
    Field "ProjectID" "project_id,omitempty" (RString (MemoryOptions.ProjectID o));
    Field "Infer" "infer,omitempty" (RBool (MemoryOptions.Infer o));
    Field "Page" "page,omitempty" (RInt (MemoryOptions.Page o));
    Field "PageSize" "page_size,omitempty" (RInt (MemoryOptions.PageSize o));
    Field "Includes" "includes,omitempty" (RString (MemoryOptions.Includes o));
    Field "Excludes" "excludes,omitempty" (RString (MemoryOptions.Excludes o));
    Field "EnableGraph" "enable_graph,omitempty" (RBool (MemoryOptions.EnableGraph o));
    Field "StartDate" "start_date,omitempty" (RString (MemoryOptions.StartDate o));
    Field "EndDate" "end_date,omitempty" (RString (MemoryOptions.EndDate o));
    Field "CustomCategories" "custom_categories,omitempty"
      (rslice CustomCategory_value (MemoryOptions.CustomCategories o));
    Field "CustomInstructions" "custom_instructions,omitempty"
      (RString (MemoryOptions.CustomInstructions o));
    Field "Messages" "messages,omitempty"
      (rslice Message_value (MemoryOptions.Messages o)) ].

(** The fields declared on [SearchOptions] itself. *)
Definition SearchOptions_direct (o : SearchOptions.t) : list StructField :=
  [ Field "EnableGraph" "enable_graph,omitempty" (RBool (SearchOptions.EnableGraph o));
    Field "Threshold" "threshold,omitempty" (RFloat (SearchOptions.Threshold o));
    Field "TopK" "top_k,omitempty" (RInt (SearchOptions.TopK o));
    Field "OnlyMetadataBasedSearch" "only_metadata_based_search,omitempty"
      (RBool (SearchOptions.OnlyMetadataBasedSearch o));
    Field "KeywordSearch" "keyword_search,omitempty"
      (RBool (SearchOptions.KeywordSearch o));
    Field "Fields" "fields,omitempty" (rslice RString (SearchOptions.Fields o));
    Field "Categories" "categories,omitempty"
      (rslice RString (SearchOptions.Categories o));
    Field "Rerank" "rerank,omitempty" (RBool (SearchOptions.Rerank o));
    Field "Version" "version,omitempty" (RString (SearchOptions.Version o)) ].

(** The embedded [MemoryOptions] is field 0: it has no tag. *)
Definition SearchOptions_fields (o : SearchOptions.t) : list StructField :=
  Field "MemoryOptions" ""
    (RStruct (Value <$> MemoryOptions_fields (SearchOptions.MemoryOptions o)))
  :: SearchOptions_direct o.

Definition ProjectOptions_fields (o : ProjectOptions.t) : list StructField :=
  [ Field "Fields" "fields,omitempty" (rslice RString (ProjectOptions.Fields o)) ].

Definition MemoryOptions_ToQuery json_Marshal (o : MemoryOptions.t) : string :=
  structToQuery json_Marshal (MemoryOptions_fields o).

Definition SearchOptions_ToQuery json_Marshal (o : SearchOptions.t) : string :=
  structToQuery json_Marshal (SearchOptions_fields o).

Definition ProjectOptions_ToQuery json_Marshal (o : ProjectOptions.t) : string :=
  structToQuery json_Marshal (ProjectOptions_fields o).

(** The wire name of a field: its json tag up to the first comma, as
    [encoding/json] reads it. *)
Definition wire_name (tag : string) : string := (Cut "," tag).1.

(** ** encoding/json: a struct as a JSON object *)

(** A field of a struct as [json.Marshal] sees it: the name in its tag, whether
    the tag has [omitempty], and the field's value. *)
Record jsonField := JField {
  jname : string;
  omitempty : bool;
  jvalue : any
}.

(** [isEmptyValue] of [encoding/json]: false, 0, a nil pointer or interface,
    and any empty slice, map or string. *)
Definition isEmptyValue (a : any) : bool :=
  match a with
  | ANil => true
  | ABool b => negb b
  | AString s => String.eqb s ""
  | AInt z => (z =? 0)%Z
  | AFloat f => float_IsZero f
  | ASlice l => match l with [] => true | _ => false end
  | AMap m => (size m =? 0)%nat
  | AUnsupported => false
  end.

Definition put_field (m : gmap string any) (f : jsonField) : gmap string any :=
  if omitempty f && isEmptyValue (jvalue f) then m
  else <[jname f := jvalue f]> m.

Definition json_object (fields : list jsonField) : gmap string any :=
  foldl put_field ∅ fields.

(** [json.Marshal] of a struct followed by [json.Unmarshal] into a
    [map[string]interface{}]; [None] is the error of [json.Marshal]. *)
Definition to_map (fields : list jsonField) : option (gmap string any) :=
  let m := json_object fields in
  if supported (AMap m) then Some m else None.

Definition Message_json (m : Message) : any :=
  AMap (<["role" := AString (Role m)]> (<["content" := AString (Content m)]> ∅)).

(** [CustomCategories.MarshalJSON]: one single-entry object per category. *)
Definition CustomCategories_json (c : list CustomCategory) : any :=
  ASlice ((λ category,
             AMap {[ CategoryName category := AString (CategoryDescription category) ]})
          <$> c).

(** A [[]CustomCategory] without the marshaller, as in [PromptUpdatePayload]. *)
Definition CustomCategory_json (c : CustomCategory) : any :=
  AMap (<["category_name" := AString (CategoryName c)]>
          (<["category_description" := AString (CategoryDescription c)]> ∅)).

Definition MemoryOptions_json (o : MemoryOptions.t) : list jsonField :=
  [ JField "api_version" true (AString (MemoryOptions.APIVersion o));
    JField "version" true (AString (MemoryOptions.Version o));
    JField "user_id" true (AString (MemoryOptions.UserID o));
    JField "agent_id" true (AString (MemoryOptions.AgentID o));
    JField "app_id" true (AString (MemoryOptions.AppID o));
    JField "run_id" true (AString (MemoryOptions.RunID o));
    JField "timestamp" true (AInt (MemoryOptions.Timestamp o));
    JField "metadata" true (AMap (default ∅ (MemoryOptions.Metadata o)));
    JField "filters" true (AMap (default ∅ (MemoryOptions.Filters o)));
    JField "org_id" true (AString (MemoryOptions.OrgID o));
    JField "project_id" true (AString (MemoryOptions.ProjectID o));
    JField "infer" true (ABool (MemoryOptions.Infer o));
    JField "page" true (AInt (MemoryOptions.Page o));
    JField "page_size" true (AInt (MemoryOptions.PageSize o));
    JField "includes" true (AString (MemoryOptions.Includes o));
    JField "excludes" true (AString (MemoryOptions.Excludes o));
    JField "enable_graph" true (ABool (MemoryOptions.EnableGraph o));
    JField "start_date" true (AString (MemoryOptions.StartDate o));
    JField "end_date" true (AString (MemoryOptions.EndDate o));
    JField "custom_categories" true
      (CustomCategories_json (MemoryOptions.CustomCategories o));
    JField "custom_instructions" true (AString (MemoryOptions.CustomInstructions o));
    JField "messages" true (ASlice (Message_json <$> MemoryOptions.Messages o)) ].

Definition SearchOptions_direct_json (o : SearchOptions.t) : list jsonField :=
  [ JField "enable_graph" true (ABool (SearchOptions.EnableGraph o));
    JField "threshold" true (AFloat (SearchOptions.Threshold o));
    JField "top_k" true (AInt (SearchOptions.TopK o));
    JField "only_metadata_based_search" true
      (ABool (SearchOptions.OnlyMetadataBasedSearch o));
    JField "keyword_search" true (ABool (SearchOptions.KeywordSearch o));
    JField "fields" true (ASlice (AString <$> SearchOptions.Fields o));
    JField "categories" true (ASlice (AString <$> SearchOptions.Categories o));
    JField "rerank" true (ABool (SearchOptions.Rerank o));
    JField "version" true (AString (SearchOptions.Version o)) ].

(** [encoding/json] promotes the fields of the embedded [MemoryOptions]; where
    a name is declared on both structs ([enable_graph], [version]) the field of
    [SearchOptions] itself, nearer the top, is the one encoded. *)
Definition SearchOptions_json (o : SearchOptions.t) : list jsonField :=
  filter (λ f, jname f ∉ jname <$> SearchOptions_direct_json o)
         (MemoryOptions_json (SearchOptions.MemoryOptions o))
  ++ SearchOptions_direct_json o.

(** ** The filter normalizer *)

Definition fixAPIV2Filters (filters : option (gmap string any)) : gmap string any :=
  let filters := default ∅ filters in
  let filters := delete "agent_id" filters in
  let filters :=
    match filters !! "user_id" with
    | Some _ => filters
    | None => <["user_id" := AString SearchWildcard]> filters
    end in
  let filters :=
    match filters !! "app_id" with
    | Some _ => filters
    | None => <["app_id" := AString SearchWildcard]> filters
    end in
  match filters !! "run_id" with
  | Some _ => filters
  | None => <["run_id" := AString SearchWildcard]> filters
  end.

(** ** The client: errors, requests and the world outside *)

(** The error values the client returns.  [TransportError] is whatever
    [http.NewRequest] or [http.Client.Do] returned, [JSONError] an error of
    [encoding/json], [Panic] a failed type assertion. *)
Inductive error : Type :=
| errors_New (msg : string)
| APIError (Message : string)
| TransportError (e : string)
| JSONError
| errors_Wrap (err : error) (msg : string)
| Panic.

Module Request.
Record t := mk {
  Method : string;
  URL : string;
  Header : list (string * string);
  Body : option any
}.
End Request.

Module Response.
Record t := mk {
  StatusCode : Z;
  Body : string
}.
End Response.

(** The struct that [ping] decodes the response into. *)
Record pingData := PingData {
  Status : string;
  ping_OrgID : string;
  ping_ProjectID : string;
  UserEmail : string
}.

(** The Go types that the methods decode a response body into. *)
Inductive target : Type :=
| TMemories | TMemory | TAddEvents | THistory | TAllUsers | TProject
| TWebhooks | TWebhook | TEvent | TGetEvents.

(** What the client does not decide: the answer of the transport to a request
    (an error, or a response with the body that [io.ReadAll] reads), the
    decoding of a response body into a Go type ([None] is the error of
    [json.Unmarshal]), and the text of [json.Marshal]. *)
Record World := {
  Do : Request.t → string + Response.t;
  Unmarshal : target → string → option any;
  Unmarshal_ping : string → option pingData;
  json_Marshal : rvalue → option string
}.

(** A computation of the client: the requests handed to the transport, in
    order, and the error or the result. *)
Definition M (A : Type) : Type := list Request.t * (error + A).

Definition ret {A} (a : A) : M A := ([], inr a).

Definition fail {A} (e : error) : M A := ([], inl e).

Definition bind {A B} (m : M A) (k : A → M B) : M B :=
  match m with
  | (log, inl e) => (log, inl e)
  | (log, inr a) => let '(log', r) := k a in (log ++ log', r)
  end.

Notation "'let*' x ':=' m 'in' k" := (bind m (λ x, k))
  (at level 10, x name, m at level 100, k at level 200, only parsing).

Definition send (w : World) (req : Request.t) : M Response.t :=
  ([req], match Do w req with
          | inl e => inl (TransportError e)
          | inr resp => inr resp
          end).

Definition requests {A} (m : M A) : list Request.t := m.1.

Definition outcome {A} (m : M A) : error + A := m.2.

Module ClientOptions.
Record t := mk {
  APIKey : string;
  Host : string;
  OrganizationName : string;
  ProjectName : string;
  OrganizationID : string;
  ProjectID : string
}.
End ClientOptions.

Record MemoryClient := mkClient {
  apiKey : string;
  host : string;
  organizationName : string;
  projectName : string;
  organizationID : string;
  projectID : string;
  telemetryID : string
}.

Definition nonempty (s : string) : bool := negb (String.eqb s "").

Definition StatusOK : Z := 200.

Definition api_error (resp : Response.t) : error :=
  APIError ("API request failed with status "
            +:+ FormatInt (Response.StatusCode resp) +:+ ": " +:+ Response.Body resp).

Definition validateOrgProject (c : MemoryClient) : option error :=
  if (String.eqb (organizationName c) "" && nonempty (projectName c))
     || (nonempty (organizationName c) && String.eqb (projectName c) "")
  then Some (errors_New "both organizationName and projectName must be provided together")
  else if (String.eqb (organizationID c) "" && nonempty (projectID c))
          || (nonempty (organizationID c) && String.eqb (projectID c) "")
  then Some (errors_New "both organizationID and projectID must be provided together")
  else None.

(** [ping] returns the client with the identifiers of the response. *)
Definition ping (w : World) (c : MemoryClient) : M MemoryClient :=
  let* resp :=
    send w (Request.mk "GET" (host c +:+ "/v1/ping/")
              [("Authorization", "Token " +:+ apiKey c)] None) in
  if negb (Response.StatusCode resp =? StatusOK)%Z then fail (api_error resp)
  else match Unmarshal_ping w (Response.Body resp) with
       | None => fail JSONError
       | Some data =>
           if negb (String.eqb (Status data) "ok")
           then fail (APIError "API key is invalid")
           else ret (mkClient (apiKey c) (host c) (organizationName c) (projectName c)
                       (ping_OrgID data) (ping_ProjectID data) (UserEmail data))
       end.

Definition NewMemoryClient (w : World) (options : ClientOptions.t) : M MemoryClient :=
  if String.eqb (ClientOptions.APIKey options) "" then fail (errors_New "API key is required")
  else
    let Host :=
      if String.eqb (ClientOptions.Host options) "" then "https://api.mem0.ai"
      else ClientOptions.Host options in
    let client :=
      mkClient (ClientOptions.APIKey options) Host
        (ClientOptions.OrganizationName options) (ClientOptions.ProjectName options)
        (ClientOptions.OrganizationID options) (ClientOptions.ProjectID options) "" in
    match validateOrgProject client with
    | Some err => fail err
    | None => ping w client
    end.

(** The dynamic type of the [messages interface{}] argument: the four cases of
    the type switch, and any other value. *)
Inductive messages_arg : Type :=
| MsgString (m : string)
| MsgStrings (m : list string)
| MsgMessage (m : Message)
| MsgMessages (m : list Message)
| MsgOther (v : any).

(** The [switch m := messages.(type)]; [None] is its [default]. *)
Definition messages_of (messages : messages_arg) : option (list Message) :=
  match messages with
  | MsgString m => Some [MkMessage "user" m]
  | MsgStrings m => Some ((λ msg, MkMessage "user" msg) <$> m)
  | MsgMessage m => Some [m]
  | MsgMessages m => Some m
  | MsgOther _ => None
  end.

Definition both_set (a b : string) : bool := nonempty a && nonempty b.

(** [options.OrgID = c.organizationID; options.ProjectID = c.projectID] *)
Definition with_org (c : MemoryClient) (o : MemoryOptions.t) : MemoryOptions.t :=
  if both_set (organizationID c) (projectID c) then
    MemoryOptions.mk
      (MemoryOptions.APIVersion o) (MemoryOptions.Version o) (MemoryOptions.UserID o)
      (MemoryOptions.AgentID o) (MemoryOptions.AppID o) (MemoryOptions.RunID o)
      (MemoryOptions.Timestamp o) (MemoryOptions.Metadata o) (MemoryOptions.Filters o)
      (organizationID c) (projectID c)
      (MemoryOptions.Infer o) (MemoryOptions.Page o) (MemoryOptions.PageSize o)
      (MemoryOptions.Includes o) (MemoryOptions.Excludes o) (MemoryOptions.EnableGraph o)
      (MemoryOptions.StartDate o) (MemoryOptions.EndDate o)
      (MemoryOptions.CustomCategories o) (MemoryOptions.CustomInstructions o)
      (MemoryOptions.Messages o)
  else o.

(** Modelled from the spec: [preparePayload] and [Search] assign
    [options.OrgName] and [options.ProjectName], two fields that the
    [MemoryOptions] of [types/mem0.go] does not declare.  They are the
    name pair of the spec's organization/project identification: two strings,
    empty unless the client sets them, encoded like their siblings [org_id] and
    [project_id]. *)
Definition org_name_json (c : MemoryClient) : list jsonField :=
  if both_set (organizationName c) (projectName c) then
    [ JField "org_name" true (AString (organizationName c));
      JField "project_name" true (AString (projectName c)) ]
  else [].

(** [for k, v := range optionsMap { if v != nil { payload[k] = v } }] *)
Definition merge_options (optionsMap payload : gmap string any) : gmap string any :=
  filter (λ kv, is_nil kv.2 = false) optionsMap ∪ payload.

Definition preparePayload (c : MemoryClient) (messages : messages_arg)
    (options : MemoryOptions.t) : error + gmap string any :=
  match messages_of messages with
  | None => inl (errors_New "invalid messages type")
  | Some msgs =>
      let payload : gmap string any := {[ "messages" := ASlice (Message_json <$> msgs) ]} in
      let options := with_org c options in
      match to_map (MemoryOptions_json options ++ org_name_json c) with
      | None => inl JSONError
      | Some optionsMap =>
          let payload := merge_options optionsMap payload in
          match payload !! "messages" with
          | None => inl (errors_New "messages field is required")
          | Some _ =>
              inr (if IsDefault (MemoryOptions.Version options)
                   then <["version" := AString DefaultAPIVersion]> payload
                   else payload)
          end
      end
  end.

Definition headers (c : MemoryClient) : list (string * string) :=
  [("Authorization", "Token " +:+ apiKey c); ("Content-Type", "application/json")]
  ++ (if nonempty (telemetryID c) then [("Mem0-User-ID", telemetryID c)] else []).

Definition doRequest (w : World) (c : MemoryClient) (method path : string)
    (body : option any) : M Response.t :=
  if match body with Some b => supported b | None => true end
  then send w (Request.mk method (host c +:+ path) (headers c) body)
  else fail JSONError.

(** The lines that every method repeats once it has the response: read the
    body, return an [APIError] unless the status is 200, decode the body. *)
Definition check_status (resp : Response.t) : M unit :=
  if negb (Response.StatusCode resp =? StatusOK)%Z then fail (api_error resp)
  else ret tt.

Definition decode (w : World) (t : target) (resp : Response.t) : M any :=
  let* _ := check_status resp in
  match Unmarshal w t (Response.Body resp) with
  | None => fail (errors_Wrap JSONError "failed to unmarshal response")
  | Some v => ret v
  end.

(** ** The methods of the client *)

Definition AddAsync (w : World) (c : MemoryClient) (messages : messages_arg)
    (options : MemoryOptions.t) : M any :=
  match preparePayload c messages options with
  | inl err => fail err
  | inr payload =>
      let* resp := doRequest w c "POST" "/v1/memories/" (Some (AMap payload)) in
      decode w TAddEvents resp
  end.

Definition Add (w : World) (c : MemoryClient) (messages : messages_arg)
    (options : MemoryOptions.t) : M any :=
  match preparePayload c messages options with
  | inl err => fail err
  | inr payload =>
      let payload := <["async_mode" := ABool false]> payload in
      let* resp := doRequest w c "POST" "/v1/memories/" (Some (AMap payload)) in
      decode w TMemories resp
  end.

Definition Update (w : World) (c : MemoryClient) (memoryID message : string) : M any :=
  let payload : gmap string any := {[ "text" := AString message ]} in
  let* resp :=
    doRequest w c "PUT" ("/v1/memories/" +:+ memoryID +:+ "/") (Some (AMap payload)) in
  decode w TMemories resp.

Definition Get (w : World) (c : MemoryClient) (memoryID : string) : M any :=
  let* resp := doRequest w c "GET" ("/v1/memories/" +:+ memoryID +:+ "/") None in
  decode w TMemory resp.

(** The local [getAllRequest] of [GetAll]. *)
Record getAllRequest := GetAllRequest {
  req_Page : Z;
  req_PageSize : Z;
  req_OrgID : string;
  req_ProjectID : string;
  req_Fields : list string;
  req_Filters : option (gmap string any)
}.

Definition getAllRequest_json (req : getAllRequest) : list jsonField :=
  [ JField "page" true (AInt (req_Page req));
    JField "page_size" true (AInt (req_PageSize req));
    JField "org_id" true (AString (req_OrgID req));
    JField "project_id" true (AString (req_ProjectID req));
    JField "fields" true (ASlice (AString <$> req_Fields req));
    JField "filters" true (AMap (default ∅ (req_Filters req))) ].

Definition GetAll_request (c : MemoryClient) (options : option SearchOptions.t)
  : getAllRequest :=
  match options with
  | None => GetAllRequest 0 0 "" "" [] None
  | Some options =>
      let mo := SearchOptions.MemoryOptions options in
      let OrgID :=
        if String.eqb (MemoryOptions.OrgID mo) "" then organizationID c
        else MemoryOptions.OrgID mo in
      let ProjectID :=
        if String.eqb (MemoryOptions.ProjectID mo) "" then projectID c
        else MemoryOptions.ProjectID mo in
      let Filters :=
        match MemoryOptions.Filters mo with
        | None => Some ∅
        | Some filters => Some filters
        end in
      let Filters :=
        if IsDefault (SearchOptions.Version options) then Some (fixAPIV2Filters Filters)
        else Filters in
      GetAllRequest (MemoryOptions.Page mo) (MemoryOptions.PageSize mo) OrgID ProjectID
        (SearchOptions.Fields options) Filters
  end.

Definition GetAll (w : World) (c : MemoryClient) (options : option SearchOptions.t)
  : M any :=
  let req := GetAll_request c options in
  let* resp :=
    doRequest w c "POST" "/v2/memories/"
      (Some (AMap (json_object (getAllRequest_json req)))) in
  decode w TMemories resp.

(** [&types.SearchOptions{}] *)
Definition SearchOptions_zero : SearchOptions.t :=
  SearchOptions.mk MemoryOptions.zero false (Float64 true true "0") 0 false false [] []
    false "".

Definition SearchOptions_with_org (c : MemoryClient) (o : SearchOptions.t)
  : SearchOptions.t :=
  SearchOptions.mk (with_org c (SearchOptions.MemoryOptions o))
    (SearchOptions.EnableGraph o) (SearchOptions.Threshold o) (SearchOptions.TopK o)
    (SearchOptions.OnlyMetadataBasedSearch o) (SearchOptions.KeywordSearch o)
    (SearchOptions.Fields o) (SearchOptions.Categories o) (SearchOptions.Rerank o)
    (SearchOptions.Version o).

(** The payload that [Search] builds, up to the call of [doRequest]. *)
Definition Search_payload (c : MemoryClient) (query : string)
    (options : option SearchOptions.t) : error + gmap string any :=
  let options := default SearchOptions_zero options in
  let options := SearchOptions_with_org c options in
  let payload : gmap string any := {[ "query" := AString query ]} in
  match to_map (SearchOptions_json options ++ org_name_json c) with
  | None => inl JSONError
  | Some optionsMap =>
      let payload := merge_options optionsMap payload in
      match payload !! "filters" with
      | Some filters =>
          if IsDefault (SearchOptions.Version options) then
            match filters with
            | AMap filters =>
                inr (<["filter_memories" := ABool true]>
                       (<["filters" := AMap (fixAPIV2Filters (Some filters))]> payload))
            | _ => inl Panic
            end
          else inr payload
      | None => inr payload
      end
  end.

Definition Search (w : World) (c : MemoryClient) (query : string)
    (options : option SearchOptions.t) : M any :=
  match Search_payload c query options with
  | inl err => fail err
  | inr payload =>
      let* resp := doRequest w c "POST" "/v2/memories/search/" (Some (AMap payload)) in
      decode w TMemories resp
  end.

Definition Delete (w : World) (c : MemoryClient) (memoryID : string) : M any :=
  let* resp := doRequest w c "DELETE" ("/v1/memories/" +:+ memoryID +:+ "/") None in
  let* _ := check_status resp in
  ret ANil.

Definition with_query (path query : string) : string :=
  if nonempty query then path +:+ "?" +:+ query else path.

Definition DeleteAll (w : World) (c : MemoryClient) (options : MemoryOptions.t) : M any :=
  let path := with_query "/v1/memories/" (MemoryOptions_ToQuery (json_Marshal w) options) in
  let* resp := doRequest w c "DELETE" path None in
  let* _ := check_status resp in
  ret ANil.

Definition History (w : World) (c : MemoryClient) (memoryID : string) : M any :=
  let* resp :=
    doRequest w c "GET" ("/v1/memories/" +:+ memoryID +:+ "/history/") None in
  decode w THistory resp.

Definition Users (w : World) (c : MemoryClient) : M any :=
  let* resp := doRequest w c "GET" "/v1/users/" None in
  decode w TAllUsers resp.

Definition DeleteUser (w : World) (c : MemoryClient) (entityID : string) : M any :=
  let* resp := doRequest w c "DELETE" ("/v1/users/" +:+ entityID +:+ "/") None in
  let* _ := check_status resp in
  ret ANil.

Definition DeleteUsers (w : World) (c : MemoryClient) : M any :=
  let* resp := doRequest w c "DELETE" "/v1/users/" None in
  let* _ := check_status resp in
  ret ANil.

Record MemoryUpdateBody := MkMemoryUpdateBody {
  update_MemoryID : string;
  update_Text : string
}.

Definition MemoryUpdateBody_json (b : MemoryUpdateBody) : any :=
  AMap (json_object [ JField "memoryId" false (AString (update_MemoryID b));
                      JField "text" false (AString (update_Text b)) ]).

Definition BatchUpdate (w : World) (c : MemoryClient) (memories : list MemoryUpdateBody)
  : M any :=
  let* resp :=
    doRequest w c "PUT" "/v1/memories/batch/"
      (Some (ASlice (MemoryUpdateBody_json <$> memories))) in
  let* _ := check_status resp in
  ret ANil.

Definition BatchDelete (w : World) (c : MemoryClient) (memoryIDs : list string) : M any :=
  let* resp :=
    doRequest w c "DELETE" "/v1/memories/batch/" (Some (ASlice (AString <$> memoryIDs))) in
  let* _ := check_status resp in
  ret ANil.

Definition GetProject (w : World) (c : MemoryClient) (options : ProjectOptions.t) : M any :=
  let path := with_query "/v1/project/" (ProjectOptions_ToQuery (json_Marshal w) options) in
  let* resp := doRequest w c "GET" path None in
  decode w TProject resp.

Record PromptUpdatePayload := MkPromptUpdatePayload {
  prompt_CustomInstructions : string;
  prompt_CustomCategories : list CustomCategory
}.

Definition PromptUpdatePayload_json (p : PromptUpdatePayload) : any :=
  AMap (json_object
          [ JField "custom_instructions" true (AString (prompt_CustomInstructions p));
            JField "custom_categories" true
              (ASlice (CustomCategory_json <$> prompt_CustomCategories p)) ]).

Definition UpdateProject (w : World) (c : MemoryClient) (payload : PromptUpdatePayload)
  : M any :=
  let* resp :=
    doRequest w c "PUT" "/v1/project/" (Some (PromptUpdatePayload_json payload)) in
  let* _ := check_status resp in
  ret ANil.

Definition GetWebhooks (w : World) (c : MemoryClient) (projectID : string) : M any :=
  let path :=
    if nonempty projectID then "/v1/webhooks/" +:+ "?project_id=" +:+ projectID
    else "/v1/webhooks/" in
  let* resp := doRequest w c "GET" path None in
  decode w TWebhooks resp.

Record WebhookPayload := MkWebhookPayload {
  webhook_EventTypes : list string;
  webhook_ProjectID : string;
  webhook_WebhookID : string;
  webhook_Name : string;
  webhook_URL : string
}.

Definition WebhookPayload_json (p : WebhookPayload) : any :=
  AMap (json_object
          [ JField "eventTypes" false (ASlice (AString <$> webhook_EventTypes p));
            JField "projectId" false (AString (webhook_ProjectID p));
            JField "webhookId" false (AString (webhook_WebhookID p));
            JField "name" false (AString (webhook_Name p));
            JField "url" false (AString (webhook_URL p)) ]).

Definition CreateWebhook (w : World) (c : MemoryClient) (webhook : WebhookPayload) : M any :=
  let* resp := doRequest w c "POST" "/v1/webhooks/" (Some (WebhookPayload_json webhook)) in
  decode w TWebhook resp.

Definition UpdateWebhook (w : World) (c : MemoryClient) (webhook : WebhookPayload) : M any :=
  let* resp := doRequest w c "PUT" "/v1/webhooks/" (Some (WebhookPayload_json webhook)) in
  let* _ := check_status resp in
  ret ANil.

Definition DeleteWebhook (w : World) (c : MemoryClient) (webhookID : string) : M any :=
  let* resp := doRequest w c "DELETE" ("/v1/webhooks/" +:+ webhookID +:+ "/") None in
  let* _ := check_status resp in
  ret ANil.

Record FeedbackPayload := MkFeedbackPayload {
  feedback_MemoryID : string;
  feedback_Feedback : string;
  feedback_FeedbackReason : string
}.

Definition FeedbackPayload_json (p : FeedbackPayload) : any :=
  AMap (json_object
          [ JField "memory_id" false (AString (feedback_MemoryID p));
            JField "feedback" true (AString (feedback_Feedback p));
            JField "feedback_reason" true (AString (feedback_FeedbackReason p)) ]).

Definition Feedback (w : World) (c : MemoryClient) (payload : FeedbackPayload) : M any :=
  let* resp := doRequest w c "POST" "/v1/feedback/" (Some (FeedbackPayload_json payload)) in
  let* _ := check_status resp in
  ret ANil.

Definition GetEvent (w : World) (c : MemoryClient) (eventID : string) : M any :=
  let* resp := doRequest w c "GET" ("/v1/event/" +:+ eventID +:+ "/") None in
  decode w TEvent resp.

Definition GetEvents (w : World) (c : MemoryClient) (cursor : string) : M any :=
  let path := if nonempty cursor then cursor else "/v1/events/" in
  match doRequest w c "GET" path None with
  | (log, inl err) => (log, inl (errors_Wrap err "failed to get events"))
  | (log, inr resp) => let '(log', r) := decode w TGetEvents resp in (log ++ log', r)
  end.

(** One call of a public method, with its arguments. *)
Inductive call : Type :=
| CallAddAsync (messages : messages_arg) (options : MemoryOptions.t)
| CallAdd (messages : messages_arg) (options : MemoryOptions.t)
| CallUpdate (memoryID message : string)
| CallGet (memoryID : string)
| CallGetAll (options : option SearchOptions.t)
| CallSearch (query : string) (options : option SearchOptions.t)
| CallDelete (memoryID : string)
| CallDeleteAll (options : MemoryOptions.t)
| CallHistory (memoryID : string)
| CallUsers
| CallDeleteUser (entityID : string)
| CallDeleteUsers
| CallBatchUpdate (memories : list MemoryUpdateBody)
| CallBatchDelete (memoryIDs : list string)
| CallGetProject (options : ProjectOptions.t)
| CallUpdateProject (payload : PromptUpdatePayload)
| CallGetWebhooks (projectID : string)
| CallCreateWebhook (webhook : WebhookPayload)
| CallUpdateWebhook (webhook : WebhookPayload)
| CallDeleteWebhook (webhookID : string)
| CallFeedback (payload : FeedbackPayload)
| CallGetEvent (eventID : string)
| CallGetEvents (cursor : string).

Definition run (w : World) (c : MemoryClient) (k : call) : M any :=
  match k with
  | CallAddAsync messages options => AddAsync w c messages options
  | CallAdd messages options => Add w c messages options
  | CallUpdate memoryID message => Update w c memoryID message
  | CallGet memoryID => Get w c memoryID
  | CallGetAll options => GetAll w c options
  | CallSearch query options => Search w c query options
  | CallDelete memoryID => Delete w c memoryID
  | CallDeleteAll options => DeleteAll w c options
  | CallHistory memoryID => History w c memoryID
  | CallUsers => Users w c
  | CallDeleteUser entityID => DeleteUser w c entityID
  | CallDeleteUsers => DeleteUsers w c
  | CallBatchUpdate memories => BatchUpdate w c memories
  | CallBatchDelete memoryIDs => BatchDelete w c memoryIDs
  | CallGetProject options => GetProject w c options
  | CallUpdateProject payload => UpdateProject w c payload
  | CallGetWebhooks projectID => GetWebhooks w c projectID
  | CallCreateWebhook webhook => CreateWebhook w c webhook
  | CallUpdateWebhook webhook => UpdateWebhook w c webhook
  | CallDeleteWebhook webhookID => DeleteWebhook w c webhookID
  | CallFeedback payload => Feedback w c payload
  | CallGetEvent eventID => GetEvent w c eventID
  | CallGetEvents cursor => GetEvents w c cursor
  end.

(** ** Vocabulary of the statements *)

(** A value the encoders treat as unset: the zero value of its type, or a
    collection without elements. *)
Definition zero_value (v : rvalue) : bool :=
  IsZero v
  || match v with
     | RSlice (Some items) => (List.length items =? 0)%nat
     | RMap (Some m) => (size m =? 0)%nat
     | _ => false
     end.

(** [msg] contains [part] verbatim. *)
Definition carries (msg part : string) : Prop :=
  ∃ pre post, msg = pre +:+ part +:+ post.

(** The success range of HTTP. *)
Definition success (status : Z) : Prop := (200 ≤ status ≤ 299)%Z.

(** The maps of the options hold values that [json.Marshal] accepts. *)
Definition encodable (o : MemoryOptions.t) : bool :=
  supported (AMap (default ∅ (MemoryOptions.Metadata o)))
  && supported (AMap (default ∅ (MemoryOptions.Filters o))).

(** A field of the query encoder is emitted under key [k] with text [s]. *)
Definition emits json_Marshal (f : StructField) (k s : string) : Prop :=
  Tag f = k ∧ IsZero (Value f) = false ∧ k ≠ "" ∧ k ≠ "-"
  ∧ field_text json_Marshal (Value f) = Some s.

(** Sample inputs. *)
Definition no_json : rvalue → option string := λ _, None.

Definition bare_client : MemoryClient :=
  mkClient "key" "https://api.mem0.ai" "" "" "" "" "".

Definition alice_options : MemoryOptions.t :=
  MemoryOptions.mk "" "" "alice" "" "" "" 0 None None "" "" false 0 0 "" "" false "" ""
    [] "" [].

Definition full_MemoryOptions : MemoryOptions.t :=
  MemoryOptions.mk "v2" "v2" "alice" "agent" "app" "run" 7
    (Some {[ "k" := AString "v" ]}) (Some {[ "user_id" := AString "alice" ]})
    "org" "proj" true 1 10 "inc" "exc" true "2025-01-01" "2025-02-01"
    [MkCustomCategory "food" "what they eat"] "be brief"
    [MkMessage "assistant" "noted"].

Definition full_SearchOptions : SearchOptions.t :=
  SearchOptions.mk full_MemoryOptions true (Float64 false true "0.5") 3 true true
    ["id"; "memory"] ["food"] true "v2".

(** A transport that answers every request with the given response, and
    decoders that accept every body. *)
Definition answering (resp : Response.t) : World :=
  {| Do := λ _, inr resp;
     Unmarshal := λ _ body, Some (AString body);
     Unmarshal_ping := λ _, Some (PingData "ok" "" "" "");
     json_Marshal := no_json |}.

(** The three bytes that structure a query string. *)
Definition separator (c : ascii) : Prop :=
  c = "&"%char ∨ c = "="%char ∨ c = ";"%char.

(** The pairs that [Values.Encode] writes for the keys [ks], in order. *)
Definition bind_keys (v : gmap string (list string)) (ks : list string) : list string :=
  k ← ks; encode_pair k <$> v !!! k.

(** No key of the map holds an empty list: what [Values.Add] alone builds. *)
Definition nonempty_values (v : gmap string (list string)) : Prop :=
  map_Forall (λ _ xs, xs ≠ []) v.

(** Whether [json.Marshal] writes the field. *)
Definition present (f : jsonField) : bool :=
  negb (omitempty f && isEmptyValue (jvalue f)).

(** Exactly one string of a pair is empty. *)
Definition exactly_one (a b : string) : Prop :=
  (a = "" ∧ b ≠ "") ∨ (a ≠ "" ∧ b = "").

(** The fields that [preparePayload] hands to [json.Marshal]: the options
    after the client has filled in its identifiers. *)
Definition prepared_options (c : MemoryClient) (o : MemoryOptions.t) : list jsonField :=
  MemoryOptions_json (with_org c o) ++ org_name_json c.

(** The same for [Search]. *)
Definition prepared_search (c : MemoryClient) (o : SearchOptions.t) : list jsonField :=
  SearchOptions_json (SearchOptions_with_org c o) ++ org_name_json c.


(** A continuation that starts with the status check of the methods. *)
Definition checks_status {A} (k : Response.t → M A) : Prop :=
  ∀ resp, Response.StatusCode resp ≠ StatusOK → k resp = fail (api_error resp).

(** A continuation that sends nothing. *)
Definition sends_nothing {A} (k : Response.t → M A) : Prop :=
  ∀ resp, requests (k resp) = [].

(** The payload of an accepted [messages] argument. *)
Definition payload_of (c : MemoryClient) (msgs : list Message) (o : MemoryOptions.t)
  : gmap string any :=
  let payload :=
    merge_options (json_object (prepared_options c o))
      {[ "messages" := ASlice (Message_json <$> msgs) ]} in
  if IsDefault (MemoryOptions.Version o)
  then <["version" := AString DefaultAPIVersion]> payload
  else payload.

(** Options whose only set field is [Messages]. *)
Definition messages_options : MemoryOptions.t :=
  MemoryOptions.mk "" "" "" "" "" "" 0 None None "" "" false 0 0 "" "" false "" ""
    [] "" [MkMessage "assistant" "noted"].

(** Search options with a filter on [user_id] and the given [Version]. *)
Definition pinned_search (version : string) : SearchOptions.t :=
  SearchOptions.mk
    (MemoryOptions.mk "" "" "" "" "" "" 0 None (Some {[ "user_id" := AString "alice" ]})
       "" "" false 0 0 "" "" false "" "" [] "" [])
    false (Float64 true true "0") 0 false false [] [] false version.

(** ** Vocabulary of the further properties *)

(** The methods that build the body of their request from options, and may
    fail before they reach the transport. *)
Definition prepares_body (k : call) : bool :=
  match k with
  | CallAddAsync _ _ | CallAdd _ _ | CallGetAll _ | CallSearch _ _ => true
  | _ => false
  end.

(** The Go type a method decodes the response into; [None] for the methods
    that return an error only. *)
Definition decodes_into (k : call) : option target :=
  match k with
  | CallAddAsync _ _ => Some TAddEvents
  | CallAdd _ _ | CallUpdate _ _ | CallGetAll _ | CallSearch _ _ => Some TMemories
  | CallGet _ => Some TMemory
  | CallHistory _ => Some THistory
  | CallUsers => Some TAllUsers
  | CallGetProject _ => Some TProject
  | CallGetWebhooks _ => Some TWebhooks
  | CallCreateWebhook _ => Some TWebhook
  | CallGetEvent _ => Some TEvent
  | CallGetEvents _ => Some TGetEvents
  | _ => None
  end.

(** The error a method returns when the transport fails with [e]. *)
Definition transport_failure (k : call) (e : string) : error :=
  match k with
  | CallGetEvents _ => errors_Wrap (TransportError e) "failed to get events"
  | _ => TransportError e
  end.

(** What a method makes of the answer of the transport. *)
Definition settle (w : World) (k : call) (answer : string + Response.t) : error + any :=
  match answer with
  | inl e => inl (transport_failure k e)
  | inr resp =>
      if (Response.StatusCode resp =? StatusOK)%Z then
        match decodes_into k with
        | Some t =>
            match Unmarshal w t (Response.Body resp) with
            | Some v => inr v
            | None => inl (errors_Wrap JSONError "failed to unmarshal response")
            end
        | None => inr ANil
        end
      else inl (api_error resp)
  end.


(** Further sample inputs: a client that knows its organization and project,
    and options that name other ones and pin the version. *)
Definition org_client : MemoryClient :=
  mkClient "key" "https://api.mem0.ai" "" "" "org-1" "proj-1" "".

Definition foreign_options : MemoryOptions.t :=
  MemoryOptions.mk "" "v1" "alice" "" "" "" 0 None None "org-2" "proj-2" false 0 0
    "" "" false "" "" [] "" [].

(** Search options that set [Version] and [EnableGraph] on the embedded
    [MemoryOptions] only. *)
Definition embedded_only_search : SearchOptions.t :=
  SearchOptions.mk
    (MemoryOptions.mk "" "v1" "" "" "" "" 0 None None "" "" false 0 0 "" "" true "" ""
       [] "" [])
    false (Float64 true true "0") 0 false false [] [] false "".

(** The wire names of the local [getAllRequest] of [GetAll]. *)
Definition getAllRequest_names : list string :=
  ["page"; "page_size"; "org_id"; "project_id"; "fields"; "filters"].

(** The request of [ping]. *)
Definition ping_request (c : MemoryClient) : Request.t :=
  Request.mk "GET" (host c +:+ "/v1/ping/") [("Authorization", "Token " +:+ apiKey c)]
    None.

(** A service that accepts every key and knows the account's organization. *)
Definition ping_world : World :=
  {| Do := λ _, inr (Response.mk 200 "{}");
     Unmarshal := λ _ body, Some (AString body);
     Unmarshal_ping := λ _, Some (PingData "ok" "org-9" "proj-9" "a@b.c");
     json_Marshal := no_json |}.

(** The errors a method returns before any request: of [json.Marshal], or the
    [default] of the type switch of [preparePayload]. *)
Definition local_error (err : error) : Prop :=
  err = JSONError ∨ err = errors_New "invalid messages type".

(** * Properties *)

(** ** net/url: parsing an encoded query gives the values back *)

Lemma QueryEscape_cons_unescape c s :
  QueryUnescape (QueryEscape (String c s)) = String c <$> QueryUnescape (QueryEscape s).
Proof. destruct c as [[] [] [] [] [] [] [] []]; reflexivity. Qed.

Lemma QueryUnescape_QueryEscape s : QueryUnescape (QueryEscape s) = Some s.
Proof.
  induction s as [|c s IH]; [done|].
  by rewrite QueryEscape_cons_unescape, IH.
Qed.

Lemma Contains_QueryEscape_cons sep c s :
  separator sep →
  Contains sep (QueryEscape (String c s)) = Contains sep (QueryEscape s).
Proof.
  intros [->|[->| ->]]; destruct c as [[] [] [] [] [] [] [] []]; reflexivity.
Qed.

Lemma Contains_QueryEscape sep s :
  separator sep → Contains sep (QueryEscape s) = false.
Proof.
  intros Hsep. induction s as [|c s IH]; [done|].
  by rewrite Contains_QueryEscape_cons.
Qed.

Lemma Contains_app c a b :
  Contains c (a +:+ b) = Contains c a || Contains c b.
Proof.
  induction a as [|x a IH]; simpl; [done|].
  by rewrite IH, orb_assoc.
Qed.

Lemma Cut_app sep a b :
  Contains sep a = false → Cut sep (a +:+ String sep b) = (a, b).
Proof.
  induction a as [|x a IH]; simpl.
  - intros _. by rewrite Ascii.eqb_refl.
  - intros [Hx Ha]%orb_false_iff. rewrite Hx, (IH Ha). done.
Qed.

Lemma segments_whole sep a :
  Contains sep a = false → segments sep a = [a].
Proof.
  induction a as [|x a IH]; simpl; [done|].
  intros [Hx Ha]%orb_false_iff. by rewrite Hx, (IH Ha).
Qed.

Lemma segments_app sep a b :
  Contains sep a = false →
  segments sep (a +:+ String sep b) = a :: segments sep b.
Proof.
  induction a as [|x a IH]; simpl.
  - intros _. by rewrite Ascii.eqb_refl.
  - intros [Hx Ha]%orb_false_iff. by rewrite Hx, (IH Ha).
Qed.

Lemma join_cons_cons c x y l :
  join (String c EmptyString) (x :: y :: l)
  = x +:+ String c (join (String c EmptyString) (y :: l)).
Proof. reflexivity. Qed.

Lemma segments_join sep l :
  l ≠ [] → Forall (λ x, Contains sep x = false) l →
  segments sep (join (String sep EmptyString) l) = l.
Proof.
  induction l as [|x l IH]; [done|].
  intros _ Hall. apply Forall_cons in Hall as [Hx Hl].
  destruct l as [|y l].
  - by apply segments_whole.
  - rewrite join_cons_cons, segments_app by done. f_equal. by apply IH.
Qed.

Lemma encode_pair_clean sep k x :
  separator sep → sep ≠ "="%char → Contains sep (encode_pair k x) = false.
Proof.
  intros Hsep Hne. unfold encode_pair.
  rewrite !Contains_app, !Contains_QueryEscape by done.
  destruct Hsep as [->|[->| ->]]; [reflexivity|done|reflexivity].
Qed.

Lemma encode_pair_nonempty k x : String.eqb (encode_pair k x) "" = false.
Proof.
  unfold encode_pair. destruct (QueryEscape k); reflexivity.
Qed.

Lemma parse_segment_encode_pair m err k x :
  parse_segment (m, err) (encode_pair k x) = (<[k := m !!! k ++ [x]]> m, err).
Proof.
  unfold parse_segment.
  rewrite encode_pair_clean, encode_pair_nonempty;
    [|right; by right|done].
  unfold encode_pair. change ("=" +:+ QueryEscape x) with (String "="%char (QueryEscape x)).
  rewrite Cut_app by (apply Contains_QueryEscape; right; by left).
  by rewrite !QueryUnescape_QueryEscape.
Qed.

Lemma parse_key_values m err k xs :
  xs ≠ [] →
  foldl parse_segment (m, err) (encode_pair k <$> xs) = (<[k := m !!! k ++ xs]> m, err).
Proof.
  revert m. induction xs as [|x xs IH]; [done|].
  intros m _. rewrite fmap_cons. cbn [foldl]. rewrite parse_segment_encode_pair.
  destruct xs as [|y xs]; [done|].
  rewrite IH by done. f_equal.
  rewrite lookup_total_insert_eq, insert_insert_eq. by rewrite <-(assoc_L (++)).
Qed.

Lemma parse_keys (v : gmap string (list string)) ks m err :
  NoDup ks →
  (∀ k, k ∈ ks → m !! k = None) →
  ∀ k,
    (foldl parse_segment (m, err) (bind_keys v ks)).1 !! k
    = if decide (k ∈ ks ∧ v !!! k ≠ []) then Some (v !!! k) else m !! k.
Proof.
  unfold bind_keys.
  revert m. induction ks as [|k0 ks IH]; intros m Hnd Hfresh k.
  - destruct (decide (k ∈ [] ∧ _)) as [[H _]|]; [|done]. by apply elem_of_nil in H.
  - apply NoDup_cons in Hnd as [Hk0 Hnd].
    rewrite bind_cons, foldl_app.
    destruct (decide (v !!! k0 = [])) as [Hnil|Hne].
    + rewrite Hnil. simpl. rewrite IH; [|done|intros; apply Hfresh; by right].
      destruct (decide (k ∈ ks ∧ _)) as [[H1 H2]|H1];
        destruct (decide (k ∈ k0 :: ks ∧ _)) as [[H3 H4]|H3]; try done.
      * exfalso. apply H3. split; [by right|done].
      * exfalso. apply elem_of_cons in H3 as [->|H3]; [done|]. by apply H1.
    + rewrite parse_key_values by done.
      rewrite IH; [|done|].
      * rewrite (lookup_total_alt m k0), Hfresh by left. simpl.
        destruct (decide (k ∈ ks ∧ _)) as [[H1 H2]|H1];
          destruct (decide (k ∈ k0 :: ks ∧ _)) as [[H3 H4]|H3]; try done.
        -- exfalso. apply H3. split; [by right|done].
        -- apply elem_of_cons in H3 as [->|H3]; [|exfalso; by apply H1].
           by rewrite lookup_insert_eq.
        -- rewrite lookup_insert_ne; [done|]. intros ->. apply H3. split; [by left|done].
      * intros k' Hk'. rewrite lookup_insert_ne; [apply Hfresh; by right|].
        intros ->. done.
Qed.

Lemma parse_pairs_no_error segs m :
  Forall (λ s, ∃ k x, s = encode_pair k x) segs →
  (foldl parse_segment (m, false) segs).2 = false.
Proof.
  revert m. induction segs as [|s segs IH]; intros m Hall; [done|].
  apply Forall_cons in Hall as [(k & x & ->) Hall].
  cbn [foldl]. rewrite parse_segment_encode_pair. by apply IH.
Qed.

Lemma bind_keys_pairs v ks :
  Forall (λ s, ∃ k x, s = encode_pair k x) (bind_keys v ks).
Proof.
  unfold bind_keys. apply Forall_forall. intros s Hs.
  apply list_elem_of_bind in Hs as (k & Hs & _).
  apply list_elem_of_fmap in Hs as (x & -> & _). eauto.
Qed.

Lemma ParseQuery_bind_keys v ks :
  nonempty_values v → NoDup ks → (∀ k, k ∈ ks ↔ k ∈ dom v) →
  foldl parse_segment (∅, false) (bind_keys v ks) = (v, false).
Proof.
  intros Hne Hnd Hks.
  rewrite (surjective_pairing (foldl _ _ _)). f_equal.
  - apply map_eq. intros k.
    rewrite parse_keys; [|done|intros; apply lookup_empty].
    rewrite lookup_empty.
    destruct (v !! k) as [xs|] eqn:Hk.
    + rewrite decide_True.
      * by rewrite (lookup_total_correct _ _ _ Hk).
      * split.
        -- apply Hks, elem_of_dom. eauto.
        -- rewrite (lookup_total_correct _ _ _ Hk). by eapply Hne.
    + rewrite decide_False; [done|]. intros [Hin _].
      apply Hks, elem_of_dom in Hin as [? ?]. congruence.
  - apply parse_pairs_no_error, bind_keys_pairs.
Qed.

Lemma sorted_keys_spec v k : k ∈ sorted_keys v ↔ k ∈ dom v.
Proof.
  unfold sorted_keys. rewrite merge_sort_Permutation. apply elem_of_elements.
Qed.

Lemma sorted_keys_NoDup v : NoDup (sorted_keys v).
Proof.
  unfold sorted_keys. rewrite merge_sort_Permutation. apply NoDup_elements.
Qed.

Lemma ParseQuery_Encode v :
  nonempty_values v → ParseQuery (Values_Encode v) = (v, false).
Proof.
  intros Hne. unfold ParseQuery, Values_Encode.
  fold (bind_keys v (sorted_keys v)).
  pose proof (ParseQuery_bind_keys v (sorted_keys v) Hne
                (sorted_keys_NoDup v) (sorted_keys_spec v)) as Hparse.
  pose proof (bind_keys_pairs v (sorted_keys v)) as Hpairs.
  destruct (bind_keys v (sorted_keys v)) as [|s segs]; [exact Hparse|].
  rewrite segments_join; [done|done|].
  eapply Forall_impl; [exact Hpairs|].
  intros ? (k & x & ->). apply encode_pair_clean; [by left|done].
Qed.

(** ** The query encoder *)

Section EncoderFacts.
Variable jm : rvalue → option string.

Lemma Values_Add_elem key value v k s :
  s ∈ Values_Add key value v !!! k ↔ s ∈ v !!! k ∨ (key = k ∧ value = s).
Proof.
  unfold Values_Add. destruct (decide (key = k)) as [->|Hne].
  - rewrite lookup_total_insert_eq, elem_of_app, list_elem_of_singleton.
    intuition congruence.
  - rewrite lookup_total_insert_ne by done. intuition congruence.
Qed.

Lemma query_step_elem acc f k s :
  s ∈ query_step jm acc f !!! k ↔ s ∈ acc !!! k ∨ emits jm f k s.
Proof.
  unfold query_step, emits.
  destruct (IsZero (Value f)) eqn:Hz; [intuition congruence|].
  destruct (String.eqb (Tag f) "") eqn:He.
  { apply String.eqb_eq in He. simpl. intuition congruence. }
  destruct (String.eqb (Tag f) "-") eqn:Hd.
  { apply String.eqb_eq in Hd. simpl. intuition congruence. }
  apply String.eqb_neq in He, Hd. simpl.
  destruct (field_text jm (Value f)) as [x|] eqn:Ht.
  - rewrite Values_Add_elem. intuition congruence.
  - intuition congruence.
Qed.

Lemma foldl_query_step_elem fields acc k s :
  s ∈ foldl (query_step jm) acc fields !!! k
  ↔ s ∈ acc !!! k ∨ ∃ f, f ∈ fields ∧ emits jm f k s.
Proof.
  revert acc. induction fields as [|f fields IH]; intros acc; simpl.
  - split; [auto|]. intros [?|(f & Hf & _)]; [done|]. by apply elem_of_nil in Hf.
  - rewrite IH, query_step_elem. split.
    + intros [[?|?]|(g & ? & ?)]; [by left|right..].
      * exists f. split; [left|done].
      * exists g. split; [by right|done].
    + intros [?|(g & [->|?]%elem_of_cons & ?)]; [by left; left|by left; right|].
      right. by exists g.
Qed.

Lemma query_values_elem fields k s :
  s ∈ query_values jm fields !!! k ↔ ∃ f, f ∈ fields ∧ emits jm f k s.
Proof.
  unfold query_values. rewrite foldl_query_step_elem, lookup_total_empty.
  split; [|by right]. intros [H|?]; [|done]. by apply elem_of_nil in H.
Qed.

Lemma Values_Add_nonempty key value v :
  nonempty_values v → nonempty_values (Values_Add key value v).
Proof.
  intros Hv. unfold Values_Add. apply map_Forall_insert_2; [|done].
  by destruct (v !!! key).
Qed.

Lemma query_step_nonempty acc f :
  nonempty_values acc → nonempty_values (query_step jm acc f).
Proof.
  intros Hacc. unfold query_step.
  repeat case_match; auto using Values_Add_nonempty.
Qed.

Lemma query_values_nonempty fields : nonempty_values (query_values jm fields).
Proof.
  unfold query_values.
  assert (nonempty_values (∅ : gmap string (list string))) as Hacc
    by apply map_Forall_empty.
  revert Hacc. generalize (∅ : gmap string (list string)).
  induction fields as [|f fields IH]; intros acc Hacc; simpl; [done|].
  by apply IH, query_step_nonempty.
Qed.

Lemma ParseQuery_structToQuery fields :
  ParseQuery (structToQuery jm fields) = (query_values jm fields, false).
Proof. apply ParseQuery_Encode, query_values_nonempty. Qed.

Lemma query_values_lookup_None fields k :
  (∀ f s, f ∈ fields → ¬ emits jm f k s) → query_values jm fields !! k = None.
Proof.
  intros Hno. destruct (query_values jm fields !! k) as [xs|] eqn:Hk; [|done].
  exfalso. destruct xs as [|s xs].
  - by eapply (query_values_nonempty fields).
  - assert (s ∈ query_values jm fields !!! k) as Hs.
    { rewrite (lookup_total_correct _ _ _ Hk). left. }
    apply query_values_elem in Hs as (f & Hf & Hemit). by eapply Hno.
Qed.

Lemma zero_value_not_emitted v :
  zero_value v = true → IsZero v = true ∨ field_text jm v = None.
Proof.
  unfold zero_value. destruct (IsZero v) eqn:Hz; [by left|]. simpl.
  destruct v as [| | | | |[items|]| | |[m|]|]; try done; simpl.
  - intros ->. by right.
  - intros ->. by right.
Qed.
End EncoderFacts.

Lemma field_text_scalar jm v x :
  scalar_text v = Some x → field_text jm v = Some x.
Proof. by destruct v. Qed.

Lemma field_text_slice jm items :
  items ≠ [] →
  field_text jm (RSlice (Some items)) = Some (join "," (omap scalar_text items)).
Proof. by destruct items. Qed.

(** C6, as amended: re-parsing the query string that [structToQuery] builds
    raises no error and yields, whatever the order, exactly the key/value pairs
    of the emitted fields: the fields of the struct itself that are non-zero,
    carry a json tag and get a text from the encoder's kind switch.  For a
    scalar field that text is its canonical text, and for a non-empty sequence
    the comma-joined canonical texts of its scalar elements. *)
Theorem structToQuery_roundtrip jm (fields : list StructField) :
  let parsed := ParseQuery (structToQuery jm fields) in
  parsed.2 = false
  ∧ (∀ k s, s ∈ parsed.1 !!! k ↔ ∃ f, f ∈ fields ∧ emits jm f k s)
  ∧ (∀ f, f ∈ fields → Tag f ≠ "" → Tag f ≠ "-" →
       (∀ x, IsZero (Value f) = false → scalar_text (Value f) = Some x →
             x ∈ parsed.1 !!! Tag f)
       ∧ (∀ items, Value f = RSlice (Some items) → items ≠ [] →
                   join "," (omap scalar_text items) ∈ parsed.1 !!! Tag f)).
Proof.
  intros parsed. unfold parsed. rewrite ParseQuery_structToQuery. cbn [fst snd].
  split; [done|]. split; [intros k s; apply query_values_elem|].
  intros f Hf Hempty Hdash. split.
  - intros x Hnz Hx. apply query_values_elem. exists f.
    split; [done|]. repeat split; try done. by apply field_text_scalar.
  - intros items Hv Hitems. apply query_values_elem. exists f.
    split; [done|]. repeat split; try done.
    + by rewrite Hv.
    + rewrite Hv. by apply field_text_slice.
Qed.

(** C6 at work: the fields of a project options value, a sequence of two
    strings, come back comma-joined under the key of the field. *)
Lemma structToQuery_roundtrip_witness :
  "id,memory"
  ∈ (ParseQuery (ProjectOptions_ToQuery no_json (ProjectOptions.mk ["id"; "memory"]))).1
      !!! "fields,omitempty".
Proof.
  destruct (structToQuery_roundtrip no_json
              (ProjectOptions_fields (ProjectOptions.mk ["id"; "memory"])))
    as (_ & _ & Hfields).
  destruct (Hfields (Field "Fields" "fields,omitempty"
                       (RSlice (Some [RString "id"; RString "memory"]))))
    as [_ Hslice].
  - left.
  - discriminate.
  - discriminate.
  - apply (Hslice [RString "id"; RString "memory"]).
    + reflexivity.
    + discriminate.
Defined.

(** C6 fails as stated: in a fully populated [SearchOptions] the scalar
    [UserID] is ["alice"], yet re-parsing its query string yields the pairs of
    the nine fields of [SearchOptions] only, none of them for [UserID]; and in
    a fully populated [MemoryOptions] the sequence [Messages] comes back as an
    empty text. *)
Lemma structToQuery_roundtrip_loses_fields :
  MemoryOptions.UserID (SearchOptions.MemoryOptions full_SearchOptions) = "alice"
  ∧ SearchOptions_ToQuery no_json full_SearchOptions
    = "categories%2Comitempty=food&enable_graph%2Comitempty=true&fields%2Comitempty=id%2Cmemory&keyword_search%2Comitempty=true&only_metadata_based_search%2Comitempty=true&rerank%2Comitempty=true&threshold%2Comitempty=0.5&top_k%2Comitempty=3&version%2Comitempty=v2"
  ∧ (ParseQuery (SearchOptions_ToQuery no_json full_SearchOptions)).1 !! "user_id" = None
  ∧ (ParseQuery (SearchOptions_ToQuery no_json full_SearchOptions)).1
      !! "user_id,omitempty" = None
  ∧ MemoryOptions.Messages full_MemoryOptions = [MkMessage "assistant" "noted"]
  ∧ (ParseQuery (MemoryOptions_ToQuery no_json full_MemoryOptions)).1
      !! "messages,omitempty" = Some [""].
Proof. do 5 (split; [vm_compute; reflexivity|]). vm_compute; reflexivity. Qed.

Lemma query_step_untagged jm acc f : Tag f = "" → query_step jm acc f = acc.
Proof.
  intros Htag. unfold query_step. rewrite Htag.
  destruct (IsZero (Value f)); reflexivity.
Qed.

Lemma query_values_cons jm f fields :
  query_values jm (f :: fields)
  = foldl (query_step jm) (query_step jm ∅ f) fields.
Proof. reflexivity. Qed.

Lemma query_values_untagged jm f fields :
  Tag f = "" → query_values jm (f :: fields) = query_values jm fields.
Proof. intros Htag. by rewrite query_values_cons, query_step_untagged. Qed.

Lemma query_values_dom jm fields :
  dom (query_values jm fields) ⊆ list_to_set (Tag <$> fields).
Proof.
  intros k Hk. apply elem_of_dom in Hk as [xs Hk].
  destruct xs as [|s xs].
  { exfalso. exact (query_values_nonempty jm fields k [] Hk eq_refl). }
  assert (s ∈ query_values jm fields !!! k) as Hs.
  { rewrite (lookup_total_correct _ _ _ Hk). left. }
  apply query_values_elem in Hs as (f & Hf & <- & _).
  apply elem_of_list_to_set. by apply list_elem_of_fmap_2.
Qed.

(** C7, at the failing input [MemoryOptions{UserID: "alice"}]: the parameter is
    named by the whole json tag, [user_id,omitempty], and not by the wire name
    [user_id] of the field; and so it is for every struct: each key of the
    query is the whole tag of a field. *)
Theorem ToQuery_key_is_whole_tag jm :
  MemoryOptions_ToQuery jm alice_options = "user_id%2Comitempty=alice"
  ∧ (ParseQuery (MemoryOptions_ToQuery jm alice_options)).1 !! "user_id,omitempty"
    = Some ["alice"]
  ∧ (ParseQuery (MemoryOptions_ToQuery jm alice_options)).1 !! "user_id" = None
  ∧ wire_name "user_id,omitempty" = "user_id"
  ∧ ∀ fields : list StructField,
      dom (ParseQuery (structToQuery jm fields)).1 ⊆ list_to_set (Tag <$> fields).
Proof.
  do 4 (split; [vm_compute; reflexivity|]).
  intros fields. rewrite ParseQuery_structToQuery. apply query_values_dom.
Qed.

(** C10: the query string of a [SearchOptions] is the one of the fields
    declared on [SearchOptions] itself, whatever the embedded [MemoryOptions]
    holds; every parameter it contains is named by the tag of one of these
    nine fields. *)
Theorem SearchOptions_ToQuery_skips_embedded jm (o : SearchOptions.t) :
  SearchOptions_ToQuery jm o = structToQuery jm (SearchOptions_direct o)
  ∧ dom (ParseQuery (SearchOptions_ToQuery jm o)).1
    ⊆ list_to_set
        [ "enable_graph,omitempty"; "threshold,omitempty"; "top_k,omitempty";
          "only_metadata_based_search,omitempty"; "keyword_search,omitempty";
          "fields,omitempty"; "categories,omitempty"; "rerank,omitempty";
          "version,omitempty" ].
Proof.
  assert (SearchOptions_ToQuery jm o = structToQuery jm (SearchOptions_direct o)) as Heq.
  { unfold SearchOptions_ToQuery, structToQuery, SearchOptions_fields.
    apply (f_equal Values_Encode), query_values_untagged. reflexivity. }
  split; [exact Heq|].
  rewrite Heq, ParseQuery_structToQuery.
  exact (query_values_dom jm (SearchOptions_direct o)).
Qed.

(** ** The filter normalizer *)

Lemma lookup_or_wildcard (m : gmap string any) (key k : string) :
  match m !! key with
  | Some _ => m
  | None => <[key := AString SearchWildcard]> m
  end !! k
  = if decide (k = key) then Some (default (AString SearchWildcard) (m !! key))
    else m !! k.
Proof.
  destruct (decide (k = key)) as [->|Hne].
  - destruct (m !! key) as [v|] eqn:Hkey; [done|]. by rewrite lookup_insert_eq.
  - destruct (m !! key); [done|]. by rewrite lookup_insert_ne.
Qed.

Lemma fixAPIV2Filters_lookup (filters : option (gmap string any)) (k : string) :
  fixAPIV2Filters filters !! k
  = if decide (k = "agent_id") then None
    else if decide (k ∈ ["user_id"; "app_id"; "run_id"])
         then Some (default (AString SearchWildcard) (default ∅ filters !! k))
         else default ∅ filters !! k.
Proof.
  unfold fixAPIV2Filters. cbv zeta. generalize (default ∅ filters). intros m.
  set (m0 := delete "agent_id" m).
  set (m1 := match m0 !! "user_id" with Some _ => m0 | None => _ end).
  set (m2 := match m1 !! "app_id" with Some _ => m1 | None => _ end).
  rewrite (lookup_or_wildcard m2). subst m2.
  rewrite !(lookup_or_wildcard m1). subst m1.
  rewrite !(lookup_or_wildcard m0). subst m0.
  rewrite !lookup_delete.
  assert (k ∈ ["user_id"; "app_id"; "run_id"]
          ↔ k = "user_id" ∨ k = "app_id" ∨ k = "run_id") as Hin.
  { rewrite !elem_of_cons, elem_of_nil. tauto. }
  repeat case_decide; subst; try discriminate; try reflexivity;
    try (exfalso; tauto).
Qed.

(** C1: for every filter mapping, nil included, [fixAPIV2Filters] returns a
    mapping in which [agent_id] is absent, in which [user_id], [app_id] and
    [run_id] are present, with their value of the input or, when the input has
    none, the wildcard ["*"], and in which every other key holds what it holds
    in the input. *)
Theorem fixAPIV2Filters_spec (filters : option (gmap string any)) :
  let input := default ∅ filters in
  let result := fixAPIV2Filters filters in
  result !! "agent_id" = None
  ∧ Forall (λ k, result !! k = Some (default (AString SearchWildcard) (input !! k)))
      ["user_id"; "app_id"; "run_id"]
  ∧ ∀ k, k ∈ ["agent_id"; "user_id"; "app_id"; "run_id"] ∨ result !! k = input !! k.
Proof.
  intros input result. split; [|split].
  - unfold result. rewrite fixAPIV2Filters_lookup. by rewrite decide_True.
  - repeat constructor; unfold result; rewrite fixAPIV2Filters_lookup;
      (rewrite decide_False by discriminate);
      by rewrite decide_True by (repeat constructor).
  - intros k. unfold result. rewrite fixAPIV2Filters_lookup.
    destruct (decide (k = "agent_id")) as [->|_]; [left; repeat constructor|].
    destruct (decide (k ∈ ["user_id"; "app_id"; "run_id"])) as [Hin|_];
      [left; by right|by right].
Qed.

(** ** encoding/json *)

Lemma supported_AMap (m : gmap string any) :
  supported (AMap m) = true ↔ map_Forall (λ _ v, supported v = true) m.
Proof.
  cbn [supported].
  apply (map_fold_weak_ind
           (λ (r : bool) (m : gmap string any),
              r = true ↔ map_Forall (λ _ v, supported v = true) m)).
  - split; [intros _; apply map_Forall_empty|done].
  - intros i x m' r Hi IH. rewrite map_Forall_insert by done.
    rewrite andb_true_iff, IH. done.
Qed.

Lemma put_field_lookup m f k :
  put_field m f !! k
  = if decide (jname f = k ∧ present f = true) then Some (jvalue f) else m !! k.
Proof.
  unfold put_field, present.
  destruct (omitempty f && isEmptyValue (jvalue f)); simpl.
  - rewrite decide_False; [done|]. by intros [_ ?].
  - destruct (decide (jname f = k)) as [->|Hne].
    + rewrite lookup_insert_eq, decide_True; done.
    + rewrite lookup_insert_ne by done. rewrite decide_False; [done|]. by intros [? _].
Qed.

Lemma json_object_snoc fields f :
  json_object (fields ++ [f]) = put_field (json_object fields) f.
Proof. unfold json_object. by rewrite foldl_app. Qed.

Lemma json_object_elem fields k v :
  json_object fields !! k = Some v →
  ∃ f, f ∈ fields ∧ jname f = k ∧ present f = true ∧ jvalue f = v.
Proof.
  induction fields as [|f fields IH] using rev_ind; [done|].
  rewrite json_object_snoc, put_field_lookup.
  destruct (decide _) as [[Hk Hp]|_].
  - intros [= <-]. exists f. rewrite elem_of_app, list_elem_of_singleton. auto.
  - intros (g & ? & ?)%IH. exists g. rewrite elem_of_app. auto.
Qed.

Lemma json_object_absent fields k :
  (∀ f, f ∈ fields → jname f = k → present f = false) →
  json_object fields !! k = None.
Proof.
  intros Hno. destruct (json_object fields !! k) as [v|] eqn:Hk; [|done].
  apply json_object_elem in Hk as (f & Hf & Hname & Hp & _).
  rewrite (Hno f Hf Hname) in Hp. done.
Qed.

Lemma json_object_lookup fields f :
  NoDup (jname <$> fields) → f ∈ fields →
  json_object fields !! jname f = if present f then Some (jvalue f) else None.
Proof.
  induction fields as [|g fields IH] using rev_ind; intros Hnd Hf.
  { by apply elem_of_nil in Hf. }
  rewrite fmap_app, NoDup_app in Hnd. destruct Hnd as (Hnd & Hfresh & _).
  rewrite json_object_snoc, put_field_lookup.
  apply elem_of_app in Hf as [Hf|Hf];
    [|apply list_elem_of_singleton in Hf; subst f].
  - rewrite decide_False; [by apply IH|].
    intros [Heq _]. apply (Hfresh (jname f)).
    + by apply list_elem_of_fmap_2.
    + rewrite <-Heq. simpl. left.
  - destruct (present g) eqn:Hp.
    + by rewrite decide_True.
    + rewrite decide_False by (by intros [_ ?]).
      apply json_object_absent. intros h Hh Hname. exfalso.
      apply (Hfresh (jname g)); [|simpl; left].
      rewrite <-Hname. by apply list_elem_of_fmap_2.
Qed.

Lemma supported_json_object fields :
  (∀ f, f ∈ fields → present f = true → supported (jvalue f) = true) →
  supported (AMap (json_object fields)) = true.
Proof.
  intros Hall. apply supported_AMap. intros k v Hk.
  apply json_object_elem in Hk as (f & Hf & _ & Hp & <-). by apply Hall.
Qed.

Lemma supported_json_object_inv fields f :
  NoDup (jname <$> fields) → f ∈ fields → present f = true →
  supported (AMap (json_object fields)) = true → supported (jvalue f) = true.
Proof.
  intros Hnd Hf Hp Hsup.
  pose proof (json_object_lookup fields f Hnd Hf) as Hk. rewrite Hp in Hk.
  rewrite supported_AMap in Hsup. by apply (Hsup _ _ Hk).
Qed.

Lemma merge_options_lookup optionsMap payload k :
  merge_options optionsMap payload !! k
  = match optionsMap !! k with
    | Some v => if is_nil v then payload !! k else Some v
    | None => payload !! k
    end.
Proof.
  unfold merge_options. rewrite lookup_union.
  destruct (optionsMap !! k) as [v|] eqn:Hk.
  - destruct (is_nil v) eqn:Hnil.
    + rewrite map_lookup_filter_None_2; [by rewrite (left_id_L None _)|].
      right. intros v' Hv'. simpl. congruence.
    + erewrite map_lookup_filter_Some_2; [|done..]. by destruct (payload !! k).
  - rewrite map_lookup_filter_None_2 by auto. by rewrite (left_id_L None _).
Qed.

Lemma supported_merge_options optionsMap payload :
  supported (AMap optionsMap) = true → supported (AMap payload) = true →
  supported (AMap (merge_options optionsMap payload)) = true.
Proof.
  rewrite !supported_AMap. intros Ho Hp k v.
  rewrite merge_options_lookup. destruct (optionsMap !! k) as [x|] eqn:Hk.
  - destruct (is_nil x); [apply Hp|]. intros [= <-]. by eapply Ho.
  - apply Hp.
Qed.

Lemma supported_insert k v (m : gmap string any) :
  supported v = true → supported (AMap m) = true →
  supported (AMap (<[k := v]> m)) = true.
Proof.
  rewrite !supported_AMap. intros Hv Hm. by apply map_Forall_insert_2.
Qed.


(** ** The client: errors *)

Lemma string_app_assoc (a b c : string) : (a +:+ b) +:+ c = a +:+ b +:+ c.
Proof.
  induction a as [|x a IH]; [done|].
  change (String x ((a +:+ b) +:+ c) = String x (a +:+ b +:+ c)). by rewrite IH.
Qed.

Lemma string_app_empty_r (a : string) : a +:+ "" = a.
Proof.
  induction a as [|x a IH]; [done|].
  change (String x (a +:+ "") = String x a). by rewrite IH.
Qed.

Lemma api_error_carries resp :
  ∃ msg, api_error resp = APIError msg
         ∧ carries msg (FormatInt (Response.StatusCode resp))
         ∧ carries msg (Response.Body resp).
Proof.
  eexists. split; [reflexivity|]. split.
  - by exists "API request failed with status ", (": " +:+ Response.Body resp).
  - exists ("API request failed with status "
            +:+ FormatInt (Response.StatusCode resp) +:+ ": "), "".
    by rewrite string_app_empty_r, !string_app_assoc.
Qed.

Lemma not_success_not_OK status : ¬ success status → status ≠ StatusOK.
Proof. unfold success, StatusOK. lia. Qed.

Lemma check_status_checks : checks_status (λ resp, let* _ := check_status resp in ret ANil).
Proof.
  intros resp Hne. unfold check_status.
  apply Z.eqb_neq in Hne. by rewrite Hne.
Qed.

Lemma decode_checks w t : checks_status (decode w t).
Proof.
  intros resp Hne. unfold decode, check_status.
  apply Z.eqb_neq in Hne. by rewrite Hne.
Qed.

Lemma check_status_sends_nothing :
  sends_nothing (λ resp, let* _ := check_status resp in ret ANil).
Proof.
  intros resp. unfold check_status. by destruct (negb _).
Qed.

Lemma decode_sends_nothing w t : sends_nothing (decode w t).
Proof.
  intros resp. unfold decode, check_status.
  destruct (negb _); [done|]. simpl. by destruct (Unmarshal w t _).
Qed.

Lemma requests_send {A} w req (k : Response.t → M A) :
  sends_nothing k → requests (bind (send w req) k) = [req].
Proof.
  intros Hk. unfold send, bind. destruct (Do w req) as [e|resp]; [done|].
  specialize (Hk resp). destruct (k resp) as [log r]. simpl in *. by rewrite Hk.
Qed.

Lemma outcome_send_failure {A} w req (k : Response.t → M A) resp :
  checks_status k → Do w req = inr resp → Response.StatusCode resp ≠ StatusOK →
  outcome (bind (send w req) k) = inl (api_error resp).
Proof.
  intros Hk Hdo Hne. unfold send, bind. rewrite Hdo, (Hk resp Hne). done.
Qed.

(** What a method built on [doRequest] does with a failure status. *)
Lemma doRequest_failure {A} w c method path body (k : Response.t → M A) req resp :
  checks_status k → sends_nothing k →
  requests (bind (doRequest w c method path body) k) = [req] →
  Do w req = inr resp → Response.StatusCode resp ≠ StatusOK →
  outcome (bind (doRequest w c method path body) k) = inl (api_error resp).
Proof.
  intros Hk Hn. unfold doRequest.
  destruct (match body with Some b => supported b | None => true end); [|done].
  rewrite requests_send by done. intros [= <-]. by apply outcome_send_failure.
Qed.

Lemma GetEvents_failure w c cursor req resp :
  requests (GetEvents w c cursor) = [req] →
  Do w req = inr resp → Response.StatusCode resp ≠ StatusOK →
  outcome (GetEvents w c cursor) = inl (api_error resp).
Proof.
  unfold GetEvents, doRequest. cbn [supported orb]. unfold send.
  generalize (if nonempty cursor then cursor else "/v1/events/"). intros path.
  destruct (Do w (Request.mk "GET" (host c +:+ path) (headers c) None))
    as [e|resp'] eqn:Hdo.
  - intros [= <-]. congruence.
  - pose proof (decode_sends_nothing w TGetEvents resp') as Hn.
    pose proof (decode_checks w TGetEvents resp') as Hc.
    destruct (decode w TGetEvents resp') as [log r]. unfold requests in *.
    simpl in *. subst log. intros [= <-] Hdo' Hne. rewrite Hdo in Hdo'.
    injection Hdo' as ->. specialize (Hc Hne). unfold fail in Hc.
    by injection Hc as ->.
Qed.

Ltac method_failure :=
  first
    [ eapply doRequest_failure;
      eauto using decode_checks, decode_sends_nothing, check_status_checks,
        check_status_sends_nothing
    | discriminate ].

Lemma run_failure w c (k : call) req resp :
  requests (run w c k) = [req] →
  Do w req = inr resp → Response.StatusCode resp ≠ StatusOK →
  outcome (run w c k) = inl (api_error resp).
Proof.
  intros Hreq Hdo Hne.
  destruct k; cbn [run] in *.
  - unfold AddAsync in *. destruct (preparePayload _ _ _); method_failure.
  - unfold Add in *. destruct (preparePayload _ _ _); method_failure.
  - unfold Update in *. method_failure.
  - unfold Get in *. method_failure.
  - unfold GetAll in *. method_failure.
  - unfold Search in *. destruct (Search_payload _ _ _); method_failure.
  - unfold Delete in *. method_failure.
  - unfold DeleteAll in *. method_failure.
  - unfold History in *. method_failure.
  - unfold Users in *. method_failure.
  - unfold DeleteUser in *. method_failure.
  - unfold DeleteUsers in *. method_failure.
  - unfold BatchUpdate in *. method_failure.
  - unfold BatchDelete in *. method_failure.
  - unfold GetProject in *. method_failure.
  - unfold UpdateProject in *. method_failure.
  - unfold GetWebhooks in *. method_failure.
  - unfold CreateWebhook in *. method_failure.
  - unfold UpdateWebhook in *. method_failure.
  - unfold DeleteWebhook in *. method_failure.
  - unfold Feedback in *. method_failure.
  - unfold GetEvent in *. method_failure.
  - by eapply GetEvents_failure.
Qed.

Lemma ping_failure w c req resp :
  requests (ping w c) = [req] →
  Do w req = inr resp → Response.StatusCode resp ≠ StatusOK →
  outcome (ping w c) = inl (api_error resp).
Proof.
  unfold ping. intros Hreq Hdo Hne.
  match type of Hreq with
  | requests (bind (send w ?r) ?k) = _ =>
      assert (sends_nothing k) as Hnothing;
      [|assert (checks_status k) as Hchecks]
  end.
  - intros r. destruct (negb _); [done|].
    destruct (Unmarshal_ping w _) as [data|]; [|done]. by destruct (negb _).
  - intros r Hr. apply Z.eqb_neq in Hr. by rewrite Hr.
  - rewrite requests_send in Hreq by done. injection Hreq as <-.
    by apply outcome_send_failure.
Qed.

Lemma NewMemoryClient_failure w options req resp :
  requests (NewMemoryClient w options) = [req] →
  Do w req = inr resp → Response.StatusCode resp ≠ StatusOK →
  outcome (NewMemoryClient w options) = inl (api_error resp).
Proof.
  unfold NewMemoryClient.
  destruct (String.eqb (ClientOptions.APIKey options) ""); [discriminate|].
  cbv zeta. destruct (validateOrgProject _); [discriminate|].
  exact (ping_failure w _ req resp).
Qed.

(** C3: when the transport answers the request of a method, or the ping of
    [NewMemoryClient], with a status outside the success range, the call
    returns an [APIError] whose message carries the decimal status code and
    the body of the response verbatim. *)
Theorem failure_status_gives_APIError w c (k : call) options req resp :
  Do w req = inr resp →
  ¬ success (Response.StatusCode resp) →
  (requests (run w c k) = [req] →
   ∃ msg, outcome (run w c k) = inl (APIError msg)
          ∧ carries msg (FormatInt (Response.StatusCode resp))
          ∧ carries msg (Response.Body resp))
  ∧ (requests (NewMemoryClient w options) = [req] →
     ∃ msg, outcome (NewMemoryClient w options) = inl (APIError msg)
            ∧ carries msg (FormatInt (Response.StatusCode resp))
            ∧ carries msg (Response.Body resp)).
Proof.
  intros Hdo Hne%not_success_not_OK.
  destruct (api_error_carries resp) as (msg & Hmsg & Hcarries).
  split; intros Hreq; exists msg; (split; [|exact Hcarries]); rewrite <-Hmsg.
  - by apply (run_failure w c k req resp).
  - by apply (NewMemoryClient_failure w options req resp).
Qed.

Lemma FormatInt_429 : FormatInt 429 = "429".
Proof. vm_compute. reflexivity. Qed.

(** C3 at work: a [Get] answered with 429 and the body ["rate limited"]. *)
Lemma failure_status_gives_APIError_witness :
  ∃ msg,
    outcome (run (answering (Response.mk 429 "rate limited")) bare_client (CallGet "m1"))
    = inl (APIError msg)
    ∧ carries msg "429" ∧ carries msg "rate limited".
Proof.
  rewrite <-FormatInt_429.
  apply (failure_status_gives_APIError
           (answering (Response.mk 429 "rate limited")) bare_client (CallGet "m1")
           (ClientOptions.mk "key" "" "" "" "" "")
           (Request.mk "GET" "https://api.mem0.ai/v1/memories/m1/"
              [("Authorization", "Token key"); ("Content-Type", "application/json")]
              None)
           (Response.mk 429 "rate limited")).
  - reflexivity.
  - unfold success. simpl. lia.
  - vm_compute. reflexivity.
Defined.

(** ** The client: construction *)

Lemma nonempty_true s : s ≠ "" → nonempty s = true.
Proof. intros Hs. unfold nonempty. by apply negb_true_iff, String.eqb_neq. Qed.

Lemma validateOrgProject_partial c :
  exactly_one (organizationName c) (projectName c)
  ∨ exactly_one (organizationID c) (projectID c) →
  ∃ msg, validateOrgProject c = Some (errors_New msg).
Proof.
  unfold validateOrgProject.
  destruct ((String.eqb (organizationName c) "" && nonempty (projectName c))
            || (nonempty (organizationName c) && String.eqb (projectName c) ""))
    eqn:Hname; [by eexists|].
  intros [Hone|Hone].
  - exfalso. apply orb_false_iff in Hname as [H1 H2].
    destruct Hone as [[Ha Hb]|[Ha Hb]].
    + by rewrite Ha, (nonempty_true _ Hb) in H1.
    + by rewrite Hb, (nonempty_true _ Ha) in H2.
  - destruct Hone as [[Ha Hb]|[Ha Hb]].
    + rewrite Ha, (nonempty_true _ Hb). by eexists.
    + rewrite Hb, (nonempty_true _ Ha). simpl. rewrite orb_true_r. by eexists.
Qed.

(** C4: with an empty API key, or with exactly one of the organization and
    project names, or exactly one of the organization and project identifiers,
    [NewMemoryClient] returns an error of its own and hands no request to the
    transport: the checks come before the ping. *)
Theorem NewMemoryClient_config_error w (options : ClientOptions.t) :
  ClientOptions.APIKey options = ""
  ∨ exactly_one (ClientOptions.OrganizationName options) (ClientOptions.ProjectName options)
  ∨ exactly_one (ClientOptions.OrganizationID options) (ClientOptions.ProjectID options) →
  ∃ msg, NewMemoryClient w options = ([], inl (errors_New msg)).
Proof.
  intros Hbad. unfold NewMemoryClient.
  destruct (String.eqb_spec (ClientOptions.APIKey options) "") as [_|Hkey];
    [by eexists|].
  destruct Hbad as [?|Hone]; [done|].
  match goal with
  | |- context [validateOrgProject ?client] =>
      destruct (validateOrgProject_partial client Hone) as [msg ->]
  end.
  by exists msg.
Qed.

(** C4 at work: no key; a key and an organization name without a project. *)
Lemma NewMemoryClient_config_error_witness :
  (∃ msg, NewMemoryClient (answering (Response.mk 200 "{}"))
            (ClientOptions.mk "" "" "" "" "" "") = ([], inl (errors_New msg)))
  ∧ (∃ msg, NewMemoryClient (answering (Response.mk 200 "{}"))
              (ClientOptions.mk "key" "" "acme" "" "" "") = ([], inl (errors_New msg))).
Proof.
  split.
  - apply NewMemoryClient_config_error. by left.
  - apply NewMemoryClient_config_error. right. left. right. by split.
Defined.

(** ** The client: identifiers *)

Lemma requests_doRequest_nobody {A} w c method path (k : Response.t → M A) :
  sends_nothing k →
  requests (bind (doRequest w c method path None) k)
  = [Request.mk method (host c +:+ path) (headers c) None].
Proof. intros Hk. unfold doRequest. by apply requests_send. Qed.

(** C8, as amended: no method checks its identifier.  Called with the empty
    identifier, [Get], [Update], [Delete], [History], [DeleteUser],
    [DeleteWebhook] and [GetEvent] hand the transport their one request, with
    the empty identifier in the path. *)
Theorem empty_identifier_is_sent w c (message : string) :
  requests (Get w c "")
  = [Request.mk "GET" (host c +:+ "/v1/memories//") (headers c) None]
  ∧ requests (Update w c "" message)
    = [Request.mk "PUT" (host c +:+ "/v1/memories//") (headers c)
         (Some (AMap {[ "text" := AString message ]}))]
  ∧ requests (Delete w c "")
    = [Request.mk "DELETE" (host c +:+ "/v1/memories//") (headers c) None]
  ∧ requests (History w c "")
    = [Request.mk "GET" (host c +:+ "/v1/memories//history/") (headers c) None]
  ∧ requests (DeleteUser w c "")
    = [Request.mk "DELETE" (host c +:+ "/v1/users//") (headers c) None]
  ∧ requests (DeleteWebhook w c "")
    = [Request.mk "DELETE" (host c +:+ "/v1/webhooks//") (headers c) None]
  ∧ requests (GetEvent w c "")
    = [Request.mk "GET" (host c +:+ "/v1/event//") (headers c) None].
Proof.
  split; [apply requests_doRequest_nobody, decode_sends_nothing|].
  split.
  { unfold Update, doRequest.
    replace (supported (AMap {[ "text" := AString message ]})) with true.
    - apply requests_send, decode_sends_nothing.
    - symmetry. apply supported_AMap, map_Forall_singleton. reflexivity. }
  split; [apply requests_doRequest_nobody, check_status_sends_nothing|].
  split; [apply requests_doRequest_nobody, decode_sends_nothing|].
  split; [apply requests_doRequest_nobody, check_status_sends_nothing|].
  split; [apply requests_doRequest_nobody, check_status_sends_nothing|].
  apply requests_doRequest_nobody, decode_sends_nothing.
Qed.

(** C8 fails as stated: [Get] with the empty identifier, against a service
    that answers 200, sends its request and returns the decoded body. *)
Lemma Get_empty_identifier_succeeds :
  requests (Get (answering (Response.mk 200 "{}")) bare_client "")
  = [Request.mk "GET" "https://api.mem0.ai/v1/memories//"
       [("Authorization", "Token key"); ("Content-Type", "application/json")] None]
  ∧ outcome (Get (answering (Response.mk 200 "{}")) bare_client "")
    = inr (AString "{}").
Proof. split; vm_compute; reflexivity. Qed.

(** ** The client: the payload of [Add] *)


Lemma supported_empty : supported (AMap ∅) = true.
Proof. apply supported_AMap, map_Forall_empty. Qed.

Lemma supported_Message_json m : supported (Message_json m) = true.
Proof.
  unfold Message_json. repeat apply supported_insert; reflexivity.
Qed.

Lemma supported_ASlice l :
  Forall (λ v, supported v = true) l → supported (ASlice l) = true.
Proof.
  intros Hl. induction Hl as [|v l Hv _ IH]; [done|].
  change (supported v && supported (ASlice l) = true). by rewrite Hv.
Qed.

Lemma supported_Messages l : supported (ASlice (Message_json <$> l)) = true.
Proof.
  apply supported_ASlice, Forall_fmap, Forall_forall.
  intros m _. apply supported_Message_json.
Qed.

Lemma supported_CustomCategories l : supported (CustomCategories_json l) = true.
Proof.
  apply supported_ASlice, Forall_fmap, Forall_forall. intros c _. simpl.
  apply supported_AMap, map_Forall_singleton. reflexivity.
Qed.

Lemma supported_strings l : supported (ASlice (AString <$> l)) = true.
Proof. apply supported_ASlice, Forall_fmap, Forall_forall. done. Qed.

Lemma isEmptyValue_AMap_unsupported m :
  supported (AMap m) = false → isEmptyValue (AMap m) = false.
Proof.
  intros Hm. cbn [isEmptyValue]. apply Nat.eqb_neq. intros Hsize.
  apply map_size_empty_iff in Hsize. subst m. by rewrite supported_empty in Hm.
Qed.

Ltac literal_NoDup := apply (bool_decide_unpack _); vm_compute; exact I.

Lemma org_name_json_cases c :
  org_name_json c = []
  ∨ org_name_json c
    = [ JField "org_name" true (AString (organizationName c));
        JField "project_name" true (AString (projectName c)) ].
Proof. unfold org_name_json. destruct (both_set _ _); auto. Qed.

Lemma with_org_cases c o :
  (both_set (organizationID c) (projectID c) = false ∧ with_org c o = o)
  ∨ (both_set (organizationID c) (projectID c) = true
     ∧ with_org c o
       = MemoryOptions.mk
           (MemoryOptions.APIVersion o) (MemoryOptions.Version o)
           (MemoryOptions.UserID o) (MemoryOptions.AgentID o) (MemoryOptions.AppID o)
           (MemoryOptions.RunID o) (MemoryOptions.Timestamp o)
           (MemoryOptions.Metadata o) (MemoryOptions.Filters o)
           (organizationID c) (projectID c)
           (MemoryOptions.Infer o) (MemoryOptions.Page o) (MemoryOptions.PageSize o)
           (MemoryOptions.Includes o) (MemoryOptions.Excludes o)
           (MemoryOptions.EnableGraph o) (MemoryOptions.StartDate o)
           (MemoryOptions.EndDate o) (MemoryOptions.CustomCategories o)
           (MemoryOptions.CustomInstructions o) (MemoryOptions.Messages o)).
Proof. unfold with_org. destruct (both_set _ _); auto. Qed.

Lemma prepared_options_NoDup c o : NoDup (jname <$> prepared_options c o).
Proof.
  unfold prepared_options.
  destruct (org_name_json_cases c) as [-> | ->]; literal_NoDup.
Qed.

Lemma prepared_options_omitempty c o :
  Forall (λ f, omitempty f = true) (prepared_options c o).
Proof.
  unfold prepared_options. apply Forall_app. split.
  - repeat constructor.
  - destruct (org_name_json_cases c) as [-> | ->]; repeat constructor.
Qed.

Lemma encodable_true o :
  encodable o = true →
  supported (AMap (default ∅ (MemoryOptions.Metadata o))) = true
  ∧ supported (AMap (default ∅ (MemoryOptions.Filters o))) = true.
Proof. unfold encodable. apply andb_true_iff. Qed.

Lemma prepared_options_supported c o :
  encodable o = true →
  Forall (λ f, supported (jvalue f) = true) (prepared_options c o).
Proof.
  intros [Hmeta Hfilters]%encodable_true.
  unfold prepared_options. apply Forall_app. split.
  - destruct (with_org_cases c o) as [[_ ->]|[_ ->]];
      repeat (apply Forall_cons; split); cbn [jvalue];
      first [ exact Hmeta | exact Hfilters | apply supported_Messages
            | apply supported_CustomCategories | reflexivity | constructor ].
  - destruct (org_name_json_cases c) as [-> | ->]; repeat constructor.
Qed.

Lemma metadata_prepared c o :
  JField "metadata" true (AMap (default ∅ (MemoryOptions.Metadata o)))
  ∈ prepared_options c o.
Proof.
  unfold prepared_options. apply elem_of_app. left.
  destruct (with_org_cases c o) as [[_ ->]|[_ ->]]; repeat constructor.
Qed.

Lemma filters_prepared c o :
  JField "filters" true (AMap (default ∅ (MemoryOptions.Filters o)))
  ∈ prepared_options c o.
Proof.
  unfold prepared_options. apply elem_of_app. left.
  destruct (with_org_cases c o) as [[_ ->]|[_ ->]]; repeat constructor.
Qed.


(** [json.Marshal] accepts the options exactly when their maps are encodable. *)
Lemma to_map_prepared c o :
  to_map (prepared_options c o)
  = if encodable o then Some (json_object (prepared_options c o)) else None.
Proof.
  unfold to_map. destruct (encodable o) eqn:Henc.
  - rewrite supported_json_object; [done|]. intros f Hf _.
    revert f Hf. apply Forall_forall. by apply prepared_options_supported.
  - destruct (supported (AMap (json_object (prepared_options c o)))) eqn:Hsup; [|done].
    exfalso. unfold encodable in Henc. apply andb_false_iff in Henc as [Hbad|Hbad].
    + pose proof (supported_json_object_inv _ _ (prepared_options_NoDup c o)
                    (metadata_prepared c o)) as Hinv.
      unfold present in Hinv. cbn [omitempty jvalue] in Hinv.
      rewrite (isEmptyValue_AMap_unsupported _ Hbad) in Hinv.
      rewrite Hinv in Hbad; done.
    + pose proof (supported_json_object_inv _ _ (prepared_options_NoDup c o)
                    (filters_prepared c o)) as Hinv.
      unfold present in Hinv. cbn [omitempty jvalue] in Hinv.
      rewrite (isEmptyValue_AMap_unsupported _ Hbad) in Hinv.
      rewrite Hinv in Hbad; done.
Qed.

Lemma with_org_Version c o :
  MemoryOptions.Version (with_org c o) = MemoryOptions.Version o.
Proof. by destruct (with_org_cases c o) as [[_ ->]|[_ ->]]. Qed.

Lemma preparePayload_accepted c messages o msgs :
  messages_of messages = Some msgs →
  preparePayload c messages o
  = if encodable o then inr (payload_of c msgs o) else inl JSONError.
Proof.
  intros Hmsgs. unfold preparePayload. rewrite Hmsgs.
  change (MemoryOptions_json (with_org c o) ++ org_name_json c)
    with (prepared_options c o).
  rewrite to_map_prepared. destruct (encodable o); [|done].
  rewrite merge_options_lookup, lookup_singleton_eq, with_org_Version.
  unfold payload_of.
  destruct (json_object (prepared_options c o) !! "messages") as [v|]; [|done].
  by destruct (is_nil v).
Qed.

Lemma payload_of_lookup c msgs o k :
  k ≠ "version" →
  payload_of c msgs o !! k
  = match json_object (prepared_options c o) !! k with
    | Some v =>
        if is_nil v
        then ({[ "messages" := ASlice (Message_json <$> msgs) ]} : gmap string any) !! k
        else Some v
    | None => ({[ "messages" := ASlice (Message_json <$> msgs) ]} : gmap string any) !! k
    end.
Proof.
  intros Hk. unfold payload_of.
  destruct (IsDefault _); [rewrite lookup_insert_ne by done|];
    apply merge_options_lookup.
Qed.

(** A field of the caller's options is a field of the prepared options, unless
    the client overwrites it. *)
Lemma caller_field_prepared c o f :
  f ∈ MemoryOptions_json o →
  (both_set (organizationID c) (projectID c) = true →
   jname f ≠ "org_id" ∧ jname f ≠ "project_id") →
  f ∈ prepared_options c o.
Proof.
  intros Hf Hids. unfold prepared_options. apply elem_of_app. left.
  destruct (with_org_cases c o) as [[_ ->]|[Hboth ->]]; [done|].
  destruct (Hids Hboth) as [Horg Hproj]. clear Hids.
  unfold MemoryOptions_json in Hf.
  repeat (apply elem_of_cons in Hf as [->|Hf]);
    [..|by apply elem_of_nil in Hf];
    try (exfalso; by (apply Horg || apply Hproj));
    repeat constructor.
Qed.



(** C2, as amended.  A field holding the zero value of its type, or an empty
    collection, gives no key to the query string of [structToQuery]; and it
    gives no key to the payload of [preparePayload], except that ["messages"]
    is always set from the [messages] argument, that ["version"] is set to the
    default when the options leave it empty, and that ["org_id"] and
    ["project_id"] are set by a client that knows both. *)
Theorem zero_fields_are_not_emitted :
  (∀ jm (fields : list StructField) (k : string),
     (∀ f, f ∈ fields → Tag f = k → zero_value (Value f) = true) →
     (ParseQuery (structToQuery jm fields)).1 !! k = None)
  ∧ (∀ c messages (o : MemoryOptions.t) payload (f : jsonField),
       preparePayload c messages o = inr payload →
       f ∈ MemoryOptions_json o →
       isEmptyValue (jvalue f) = true →
       jname f ≠ "messages" → jname f ≠ "version" →
       (both_set (organizationID c) (projectID c) = true →
        jname f ≠ "org_id" ∧ jname f ≠ "project_id") →
       payload !! jname f = None).
Proof.
  split.
  - intros jm fields k Hzero. rewrite ParseQuery_structToQuery.
    apply query_values_lookup_None. intros f s Hf (Htag & Hnz & _ & _ & Htext).
    destruct (zero_value_not_emitted jm _ (Hzero f Hf Htag)); congruence.
  - intros c messages o payload f Hpayload Hf Hempty Hmsg Hver Hids.
    destruct (messages_of messages) as [msgs|] eqn:Hmsgs;
      [|unfold preparePayload in Hpayload; by rewrite Hmsgs in Hpayload].
    rewrite (preparePayload_accepted _ _ _ _ Hmsgs) in Hpayload.
    destruct (encodable o); [|done]. injection Hpayload as <-.
    rewrite payload_of_lookup by done.
    pose proof (caller_field_prepared c o f Hf Hids) as Hprep.
    rewrite (json_object_lookup _ _ (prepared_options_NoDup c o) Hprep).
    unfold present.
    pose proof (prepared_options_omitempty c o) as Homit.
    rewrite Forall_forall in Homit. rewrite (Homit f Hprep), Hempty.
    cbn [andb negb]. by rewrite lookup_singleton_ne.
Qed.

(** C2 at work: the zero [MemoryOptions] gives an empty query string, and the
    payload built from options whose only set field is [Messages] has no
    ["user_id"]. *)
Lemma zero_fields_are_not_emitted_witness :
  (ParseQuery (structToQuery no_json (MemoryOptions_fields MemoryOptions.zero))).1
    !! "user_id,omitempty" = None
  ∧ payload_of bare_client [MkMessage "user" "hi"] messages_options !! "user_id" = None.
Proof.
  destruct zero_fields_are_not_emitted as [Hquery Hbody]. split.
  - apply Hquery. intros f Hf _. revert f Hf. apply Forall_forall.
    vm_compute. repeat constructor.
  - apply (Hbody bare_client (MsgString "hi") messages_options
             (payload_of bare_client [MkMessage "user" "hi"] messages_options)
             (JField "user_id" true (AString ""))).
    + vm_compute. reflexivity.
    + vm_compute. repeat constructor.
    + reflexivity.
    + discriminate.
    + discriminate.
    + discriminate.
Defined.

(** C2 fails as stated: the zero [MemoryOptions] leave [Version] empty, and
    the payload built from them has a ["version"]. *)
Lemma preparePayload_emits_default_version :
  MemoryOptions.Version MemoryOptions.zero = ""
  ∧ match preparePayload bare_client (MsgString "hi") MemoryOptions.zero with
    | inr payload => payload !! "version" = Some (AString "v2")
    | inl _ => False
    end.
Proof. split; vm_compute; reflexivity. Qed.

(** ** The client: the filters of [Search] and [GetAll] *)

Lemma with_org_Filters c o :
  MemoryOptions.Filters (with_org c o) = MemoryOptions.Filters o.
Proof. by destruct (with_org_cases c o) as [[_ ->]|[_ ->]]. Qed.

Lemma prepared_search_NoDup c o : NoDup (jname <$> prepared_search c o).
Proof.
  unfold prepared_search, SearchOptions_with_org.
  destruct (with_org_cases c (SearchOptions.MemoryOptions o)) as [[_ ->]|[_ ->]];
    destruct (org_name_json_cases c) as [-> | ->]; literal_NoDup.
Qed.

Lemma filters_prepared_search c o :
  JField "filters" true
    (AMap (default ∅ (MemoryOptions.Filters (SearchOptions.MemoryOptions o))))
  ∈ prepared_search c o.
Proof.
  unfold prepared_search. apply elem_of_app. left.
  unfold SearchOptions_json. apply elem_of_app. left.
  apply list_elem_of_filter. split.
  - apply (bool_decide_unpack _). vm_compute. exact I.
  - cbn [SearchOptions.MemoryOptions SearchOptions_with_org].
    rewrite <-(with_org_Filters c). unfold MemoryOptions_json. repeat constructor.
Qed.



Lemma search_filters_lookup c o :
  json_object (prepared_search c o) !! "filters"
  = let F := default ∅ (MemoryOptions.Filters (SearchOptions.MemoryOptions o)) in
    if (size F =? 0)%nat then None else Some (AMap F).
Proof.
  pose proof (json_object_lookup _ _ (prepared_search_NoDup c o)
                (filters_prepared_search c o)) as Hlookup.
  cbn [jname jvalue] in Hlookup. rewrite Hlookup. unfold present.
  cbn [omitempty jvalue isEmptyValue andb]. cbv zeta.
  by destruct (size _ =? 0)%nat.
Qed.

Lemma supported_singleton k v :
  supported v = true → supported (AMap {[ k := v ]}) = true.
Proof. intros Hv. by apply supported_AMap, map_Forall_singleton. Qed.




Lemma getAllRequest_NoDup req : NoDup (jname <$> getAllRequest_json req).
Proof. literal_NoDup. Qed.







(** * Further properties *)

(** ** The filter normalizer, again *)

(** X1: [fixAPIV2Filters] is idempotent: normalizing a mapping that is already
    normalized changes nothing. *)
Theorem fixAPIV2Filters_idempotent (filters : option (gmap string any)) :
  fixAPIV2Filters (Some (fixAPIV2Filters filters)) = fixAPIV2Filters filters.
Proof.
  apply map_eq. intros k. rewrite (fixAPIV2Filters_lookup (Some _)). cbn [default from_option].
  unfold id. rewrite (fixAPIV2Filters_lookup filters).
  destruct (decide (k = "agent_id")); [done|].
  destruct (decide (k ∈ ["user_id"; "app_id"; "run_id"])); done.
Qed.

(** ** The requests of the methods *)

Lemma doRequest_requests {A} w c method path body (k : Response.t → M A) :
  sends_nothing k →
  requests (bind (doRequest w c method path body) k) = []
  ∨ requests (bind (doRequest w c method path body) k)
    = [Request.mk method (host c +:+ path) (headers c) body].
Proof.
  intros Hk. unfold doRequest.
  destruct (match body with Some b => supported b | None => true end).
  - right. by apply requests_send.
  - by left.
Qed.

Lemma GetEvents_requests w c cursor :
  requests (GetEvents w c cursor)
  = [Request.mk "GET" (host c +:+ (if nonempty cursor then cursor else "/v1/events/"))
       (headers c) None].
Proof.
  unfold GetEvents, doRequest. cbn [supported orb]. unfold send.
  generalize (if nonempty cursor then cursor else "/v1/events/"). intros path.
  destruct (Do w _) as [e|resp]; [done|].
  pose proof (decode_sends_nothing w TGetEvents resp) as Hn.
  destruct (decode w TGetEvents resp) as [log r]. unfold requests in *.
  simpl in *. by subst log.
Qed.

(** The request of a method, when it sends one. *)
Lemma run_requests w c (k : call) :
  requests (run w c k) = []
  ∨ ∃ method path body,
      requests (run w c k) = [Request.mk method (host c +:+ path) (headers c) body]
      ∧ method ∈ ["GET"; "POST"; "PUT"; "DELETE"].
Proof.
  assert (∀ {A} method path body (k : Response.t → M A),
            method ∈ ["GET"; "POST"; "PUT"; "DELETE"] → sends_nothing k →
            requests (bind (doRequest w c method path body) k) = []
            ∨ ∃ m p b,
                requests (bind (doRequest w c method path body) k)
                = [Request.mk m (host c +:+ p) (headers c) b]
                ∧ m ∈ ["GET"; "POST"; "PUT"; "DELETE"]) as Hone.
  { intros A method path body k' Hm Hk'.
    destruct (doRequest_requests w c method path body k' Hk') as [->| ->]; [by left|].
    right. eexists _, _, _. split; [reflexivity|exact Hm]. }
  destruct k; cbn [run];
    try (apply Hone;
         [repeat constructor
         |first [apply decode_sends_nothing | apply check_status_sends_nothing]]).
  - unfold AddAsync. destruct (preparePayload _ _ _); [by left|].
    apply Hone; [repeat constructor|apply decode_sends_nothing].
  - unfold Add. destruct (preparePayload _ _ _); [by left|].
    apply Hone; [repeat constructor|apply decode_sends_nothing].
  - unfold Search. destruct (Search_payload _ _ _); [by left|].
    apply Hone; [repeat constructor|apply decode_sends_nothing].
  - right. rewrite GetEvents_requests. eexists _, _, _. split; [done|repeat constructor].
Qed.

(** ** The outcome of the methods *)

Lemma outcome_decode w t resp :
  outcome (decode w t resp)
  = if (Response.StatusCode resp =? StatusOK)%Z then
      match Unmarshal w t (Response.Body resp) with
      | Some v => inr v
      | None => inl (errors_Wrap JSONError "failed to unmarshal response")
      end
    else inl (api_error resp).
Proof.
  unfold decode, check_status. destruct (_ =? _)%Z; [|done].
  simpl. by destruct (Unmarshal w t _).
Qed.

Lemma outcome_check_status resp :
  outcome (let* _ := check_status resp in ret ANil)
  = if (Response.StatusCode resp =? StatusOK)%Z then inr ANil
    else inl (api_error resp).
Proof. unfold check_status. by destruct (_ =? _)%Z. Qed.

Lemma doRequest_outcome {A} w c method path body (k : Response.t → M A) req :
  sends_nothing k →
  requests (bind (doRequest w c method path body) k) = [req] →
  outcome (bind (doRequest w c method path body) k)
  = match Do w req with
    | inl e => inl (TransportError e)
    | inr resp => outcome (k resp)
    end.
Proof.
  intros Hk. unfold doRequest.
  destruct (match body with Some b => supported b | None => true end); [|done].
  rewrite requests_send by done. intros [= <-].
  unfold send, bind, outcome. destruct (Do w _) as [e|resp]; [done|].
  by destruct (k resp).
Qed.

Ltac method_outcome :=
  first
    [ erewrite doRequest_outcome;
      [|first [apply decode_sends_nothing | apply check_status_sends_nothing]|eassumption];
      unfold settle, transport_failure, decodes_into;
      match goal with |- context [Do ?w ?req] => destruct (Do w req) as [?|?] end;
      [reflexivity|first [apply outcome_decode | apply outcome_check_status]]
    | discriminate ].

Lemma run_outcome w c (k : call) req :
  requests (run w c k) = [req] → outcome (run w c k) = settle w k (Do w req).
Proof.
  intros Hreq. destruct k; cbn [run] in *.
  - unfold AddAsync in *. destruct (preparePayload _ _ _); method_outcome.
  - unfold Add in *. destruct (preparePayload _ _ _); method_outcome.
  - unfold Update in *. method_outcome.
  - unfold Get in *. method_outcome.
  - unfold GetAll in *. method_outcome.
  - unfold Search in *. destruct (Search_payload _ _ _); method_outcome.
  - unfold Delete in *. method_outcome.
  - unfold DeleteAll in *. method_outcome.
  - unfold History in *. method_outcome.
  - unfold Users in *. method_outcome.
  - unfold DeleteUser in *. method_outcome.
  - unfold DeleteUsers in *. method_outcome.
  - unfold BatchUpdate in *. method_outcome.
  - unfold BatchDelete in *. method_outcome.
  - unfold GetProject in *. method_outcome.
  - unfold UpdateProject in *. method_outcome.
  - unfold GetWebhooks in *. method_outcome.
  - unfold CreateWebhook in *. method_outcome.
  - unfold UpdateWebhook in *. method_outcome.
  - unfold DeleteWebhook in *. method_outcome.
  - unfold Feedback in *. method_outcome.
  - unfold GetEvent in *. method_outcome.
  - rewrite GetEvents_requests in Hreq. injection Hreq as <-.
    unfold GetEvents, doRequest. cbn [supported orb]. unfold send.
    destruct (Do w _) as [e|resp]; [done|].
    cbn [settle decodes_into]. rewrite <-outcome_decode.
    unfold outcome. by destruct (decode w TGetEvents resp).
Qed.

(** X2: when the transport fails on the request of a method, the method
    returns the error of the transport as it is; [GetEvents] alone wraps it
    with "failed to get events". *)
Theorem transport_error_is_returned w c (k : call) req e :
  requests (run w c k) = [req] → Do w req = inl e →
  outcome (run w c k) = inl (transport_failure k e).
Proof. intros Hreq Hdo. by rewrite (run_outcome _ _ _ _ Hreq), Hdo. Qed.

Lemma transport_error_is_returned_witness :
  let w := {| Do := λ _, inl "connection refused";
              Unmarshal := λ _ _, None;
              Unmarshal_ping := λ _, None;
              json_Marshal := no_json |} in
  outcome (run w bare_client (CallGetEvents ""))
  = inl (errors_Wrap (TransportError "connection refused") "failed to get events").
Proof.
  intros w.
  apply (transport_error_is_returned w bare_client (CallGetEvents "")
           (Request.mk "GET" "https://api.mem0.ai/v1/events/"
              [("Authorization", "Token key"); ("Content-Type", "application/json")]
              None)
           "connection refused").
  - vm_compute. reflexivity.
  - reflexivity.
Defined.

(** X3: when the request of a method is answered with status 200, the
    methods that return an error only succeed whatever the body holds; the
    others return the decoded body, or the error of [json.Unmarshal] wrapped
    with "failed to unmarshal response". *)
Theorem status_OK_is_decoded w c (k : call) req resp :
  requests (run w c k) = [req] → Do w req = inr resp →
  Response.StatusCode resp = StatusOK →
  outcome (run w c k)
  = match decodes_into k with
    | Some t =>
        match Unmarshal w t (Response.Body resp) with
        | Some v => inr v
        | None => inl (errors_Wrap JSONError "failed to unmarshal response")
        end
    | None => inr ANil
    end.
Proof.
  intros Hreq Hdo Hok. rewrite (run_outcome _ _ _ _ Hreq), Hdo. cbn [settle].
  by rewrite Hok.
Qed.

Lemma status_OK_is_decoded_witness :
  let w := {| Do := λ _, inr (Response.mk 200 "");
              Unmarshal := λ _ _, None;
              Unmarshal_ping := λ _, None;
              json_Marshal := no_json |} in
  outcome (run w bare_client (CallDelete "m1")) = inr ANil
  ∧ outcome (run w bare_client (CallGet "m1"))
    = inl (errors_Wrap JSONError "failed to unmarshal response").
Proof.
  intros w. split.
  - apply (status_OK_is_decoded w bare_client (CallDelete "m1")
             (Request.mk "DELETE" "https://api.mem0.ai/v1/memories/m1/"
                [("Authorization", "Token key"); ("Content-Type", "application/json")]
                None)
             (Response.mk 200 "")).
    + vm_compute. reflexivity.
    + reflexivity.
    + reflexivity.
  - apply (status_OK_is_decoded w bare_client (CallGet "m1")
             (Request.mk "GET" "https://api.mem0.ai/v1/memories/m1/"
                [("Authorization", "Token key"); ("Content-Type", "application/json")]
                None)
             (Response.mk 200 "")).
    + vm_compute. reflexivity.
    + reflexivity.
    + reflexivity.
Defined.

(** X4: a method never makes a second request (there is no retry), and the
    one it makes goes to the client's host followed by a path, carries the
    headers of [doRequest], and has one of the methods GET, POST, PUT and
    DELETE. *)
Theorem run_sends_one_request_at_most w c (k : call) :
  requests (run w c k) = []
  ∨ ∃ method path body,
      requests (run w c k) = [Request.mk method (host c +:+ path) (headers c) body]
      ∧ method ∈ ["GET"; "POST"; "PUT"; "DELETE"].
Proof. apply run_requests. Qed.

Lemma supported_struct fields :
  Forall (λ f, supported (jvalue f) = true) fields →
  supported (AMap (json_object fields)) = true.
Proof.
  intros Hall. apply supported_json_object. intros f Hf _.
  rewrite Forall_forall in Hall. by apply Hall.
Qed.

Lemma requests_doRequest_body {A} w c method path body (k : Response.t → M A) :
  sends_nothing k → supported body = true →
  requests (bind (doRequest w c method path (Some body)) k)
  = [Request.mk method (host c +:+ path) (headers c) (Some body)].
Proof. intros Hk Hb. unfold doRequest. rewrite Hb. by apply requests_send. Qed.

(** X5: every method other than [Add], [AddAsync], [GetAll] and [Search] hands
    the HTTP layer exactly one request, whatever its arguments are: none of
    them fails on its own before [http.NewRequest] and [Do], whose error is
    the answer of the transport. *)
Theorem run_sends_its_request w c (k : call) :
  prepares_body k = false → ∃ req, requests (run w c k) = [req].
Proof.
  intros Hk. destruct k; try discriminate; cbn [run]; eexists.
  - apply requests_doRequest_body; [apply decode_sends_nothing|].
    by apply supported_singleton.
  - apply requests_doRequest_nobody, decode_sends_nothing.
  - apply requests_doRequest_nobody, check_status_sends_nothing.
  - apply requests_doRequest_nobody, check_status_sends_nothing.
  - apply requests_doRequest_nobody, decode_sends_nothing.
  - apply requests_doRequest_nobody, decode_sends_nothing.
  - apply requests_doRequest_nobody, check_status_sends_nothing.
  - apply requests_doRequest_nobody, check_status_sends_nothing.
  - apply requests_doRequest_body; [apply check_status_sends_nothing|].
    apply supported_ASlice, Forall_fmap, Forall_forall. intros b _.
    apply supported_struct. repeat constructor.
  - apply requests_doRequest_body; [apply check_status_sends_nothing|].
    apply supported_strings.
  - apply requests_doRequest_nobody, decode_sends_nothing.
  - apply requests_doRequest_body; [apply check_status_sends_nothing|].
    apply supported_struct. repeat constructor.
    apply supported_ASlice, Forall_fmap, Forall_forall. intros b _.
    unfold CustomCategory_json. repeat apply supported_insert; reflexivity.
  - apply requests_doRequest_nobody, decode_sends_nothing.
  - apply requests_doRequest_body; [apply decode_sends_nothing|].
    apply supported_struct. repeat constructor. apply supported_strings.
  - apply requests_doRequest_body; [apply check_status_sends_nothing|].
    apply supported_struct. repeat constructor. apply supported_strings.
  - apply requests_doRequest_nobody, check_status_sends_nothing.
  - apply requests_doRequest_body; [apply check_status_sends_nothing|].
    apply supported_struct. repeat constructor.
  - apply requests_doRequest_nobody, decode_sends_nothing.
  - apply GetEvents_requests.
Qed.

Lemma run_sends_its_request_witness :
  ∃ req, requests (run (answering (Response.mk 200 "")) bare_client
                     (CallBatchDelete ["m1"; "m2"])) = [req].
Proof. by apply run_sends_its_request. Defined.

Lemma isEmptyValue_not_nil v : isEmptyValue v = false → is_nil v = false.
Proof. by destruct v. Qed.

(** A field of the prepared options that holds a value is in the payload. *)
Lemma payload_of_field c msgs o f :
  f ∈ prepared_options c o → isEmptyValue (jvalue f) = false →
  jname f ≠ "version" →
  payload_of c msgs o !! jname f = Some (jvalue f).
Proof.
  intros Hf Hne Hk. rewrite payload_of_lookup by done.
  rewrite (json_object_lookup _ _ (prepared_options_NoDup c o) Hf).
  unfold present. rewrite Hne, andb_false_r. cbn [negb].
  by rewrite (isEmptyValue_not_nil _ Hne).
Qed.

Lemma version_prepared c o :
  JField "version" true (AString (MemoryOptions.Version o)) ∈ prepared_options c o.
Proof.
  unfold prepared_options. apply elem_of_app. left.
  destruct (with_org_cases c o) as [[_ ->]|[_ ->]]; repeat constructor.
Qed.

Lemma payload_of_version c msgs o :
  payload_of c msgs o !! "version"
  = Some (AString (if String.eqb (MemoryOptions.Version o) ""
                   then DefaultAPIVersion else MemoryOptions.Version o)).
Proof.
  unfold payload_of, IsDefault.
  destruct (String.eqb (MemoryOptions.Version o) "") eqn:Hempty.
  { rewrite orb_true_r. by rewrite lookup_insert_eq. }
  rewrite orb_false_r.
  destruct (String.eqb (MemoryOptions.Version o) DefaultAPIVersion) eqn:Hdef.
  { apply String.eqb_eq in Hdef. rewrite Hdef. by rewrite lookup_insert_eq. }
  rewrite merge_options_lookup.
  pose proof (json_object_lookup _ _ (prepared_options_NoDup c o)
                (version_prepared c o)) as Hlookup.
  cbn [jname jvalue] in Hlookup. rewrite Hlookup. unfold present.
  cbn [omitempty jvalue isEmptyValue andb]. by rewrite Hempty.
Qed.

Lemma preparePayload_inr c messages o payload :
  preparePayload c messages o = inr payload →
  ∃ msgs, messages_of messages = Some msgs ∧ encodable o = true
          ∧ payload = payload_of c msgs o.
Proof.
  intros Hprep. destruct (messages_of messages) as [msgs|] eqn:Hmsgs.
  - rewrite (preparePayload_accepted _ _ _ _ Hmsgs) in Hprep.
    destruct (encodable o); [|done]. exists msgs. by inversion Hprep.
  - unfold preparePayload in Hprep. by rewrite Hmsgs in Hprep.
Qed.

(** X6: a payload of [preparePayload] always has a ["version"]: the one of
    the options, and ["v2"] when the options leave it empty. *)
Theorem preparePayload_version c (messages : messages_arg) (o : MemoryOptions.t) payload :
  preparePayload c messages o = inr payload →
  payload !! "version"
  = Some (AString (if String.eqb (MemoryOptions.Version o) ""
                   then "v2" else MemoryOptions.Version o)).
Proof.
  intros (msgs & _ & _ & ->)%preparePayload_inr. apply payload_of_version.
Qed.

Lemma preparePayload_version_witness :
  payload_of bare_client [MkMessage "user" "hi"] foreign_options !! "version"
  = Some (AString "v1").
Proof.
  apply (preparePayload_version bare_client (MsgString "hi") foreign_options).
  rewrite (preparePayload_accepted _ (MsgString "hi") _ [MkMessage "user" "hi"] eq_refl).
  replace (encodable foreign_options) with true by (vm_compute; reflexivity).
  reflexivity.
Defined.



Lemma org_id_prepared c o :
  both_set (organizationID c) (projectID c) = true →
  JField "org_id" true (AString (organizationID c)) ∈ prepared_options c o
  ∧ JField "project_id" true (AString (projectID c)) ∈ prepared_options c o.
Proof.
  intros Hboth. unfold prepared_options.
  destruct (with_org_cases c o) as [[Hno _]|[_ ->]]; [congruence|].
  split; apply elem_of_app; left; repeat constructor.
Qed.

(** X8: when the client knows its organization and its project,
    [preparePayload] writes the client's identifiers under ["org_id"] and
    ["project_id"], whatever the caller's options say. *)
Theorem preparePayload_client_ids_win c (messages : messages_arg)
    (o : MemoryOptions.t) payload :
  organizationID c ≠ "" → projectID c ≠ "" →
  preparePayload c messages o = inr payload →
  payload !! "org_id" = Some (AString (organizationID c))
  ∧ payload !! "project_id" = Some (AString (projectID c)).
Proof.
  intros Horg Hproj (msgs & _ & _ & ->)%preparePayload_inr.
  assert (both_set (organizationID c) (projectID c) = true) as Hboth.
  { unfold both_set, nonempty. apply andb_true_iff.
    split; apply negb_true_iff, String.eqb_neq; done. }
  destruct (org_id_prepared c o Hboth) as [Ho Hp].
  split.
  - apply (payload_of_field c msgs o _ Ho); [|done].
    cbn [jvalue isEmptyValue]. by apply String.eqb_neq.
  - apply (payload_of_field c msgs o _ Hp); [|done].
    cbn [jvalue isEmptyValue]. by apply String.eqb_neq.
Qed.

Lemma preparePayload_client_ids_win_witness :
  payload_of org_client [MkMessage "user" "hi"] foreign_options !! "org_id"
  = Some (AString "org-1")
  ∧ payload_of org_client [MkMessage "user" "hi"] foreign_options !! "project_id"
    = Some (AString "proj-1").
Proof.
  apply (preparePayload_client_ids_win org_client (MsgString "hi") foreign_options).
  - discriminate.
  - discriminate.
  - rewrite (preparePayload_accepted _ (MsgString "hi") _ [MkMessage "user" "hi"] eq_refl).
    replace (encodable foreign_options) with true by (vm_compute; reflexivity).
    reflexivity.
Defined.

Lemma prepared_options_no_async_mode c o f :
  f ∈ prepared_options c o → jname f ≠ "async_mode".
Proof.
  intros Hf Hname.
  assert ("async_mode" ∈ jname <$> prepared_options c o) as Hin.
  { rewrite <-Hname. by apply list_elem_of_fmap_2. }
  revert Hin. unfold prepared_options.
  destruct (org_name_json_cases c) as [-> | ->];
    apply (bool_decide_unpack _); vm_compute; exact I.
Qed.

Lemma payload_of_no_async_mode c msgs o : payload_of c msgs o !! "async_mode" = None.
Proof.
  rewrite payload_of_lookup by done.
  rewrite json_object_absent; [done|].
  intros f Hf Hname. by apply prepared_options_no_async_mode in Hf.
Qed.

Lemma supported_payload_of c msgs o :
  encodable o = true → supported (AMap (payload_of c msgs o)) = true.
Proof.
  intros Henc.
  assert (supported (AMap (merge_options (json_object (prepared_options c o))
                             {[ "messages" := ASlice (Message_json <$> msgs) ]})) = true)
    as Hmerge.
  { apply supported_merge_options.
    - apply supported_struct. by apply prepared_options_supported.
    - apply supported_singleton, supported_Messages. }
  unfold payload_of. destruct (IsDefault _); [|done].
  by apply supported_insert.
Qed.

(** X9: [Add] and [AddAsync] return the error of [preparePayload] without a
    request when it fails; when it succeeds both POST to [/v1/memories/], the
    body of [AddAsync] is the prepared payload, which has no ["async_mode"],
    and the body of [Add] is the same payload with ["async_mode"] set to
    [false]. *)
Theorem Add_differs_from_AddAsync_by_async_mode w c (messages : messages_arg)
    (o : MemoryOptions.t) :
  match preparePayload c messages o with
  | inl err =>
      Add w c messages o = ([], inl err) ∧ AddAsync w c messages o = ([], inl err)
  | inr payload =>
      ∃ body,
        requests (AddAsync w c messages o)
        = [Request.mk "POST" (host c +:+ "/v1/memories/") (headers c)
             (Some (AMap payload))]
        ∧ requests (Add w c messages o)
          = [Request.mk "POST" (host c +:+ "/v1/memories/") (headers c)
               (Some (AMap body))]
        ∧ payload !! "async_mode" = None
        ∧ body !! "async_mode" = Some (ABool false)
        ∧ ∀ k, k ≠ "async_mode" → body !! k = payload !! k
  end.
Proof.
  destruct (preparePayload c messages o) as [err|payload] eqn:Hprep.
  { unfold Add, AddAsync. by rewrite Hprep. }
  destruct (preparePayload_inr _ _ _ _ Hprep) as (msgs & _ & Henc & ->).
  pose proof (supported_payload_of c msgs o Henc) as Hsup.
  exists (<["async_mode" := ABool false]> (payload_of c msgs o)).
  unfold Add, AddAsync. rewrite Hprep. split; [|split; [|split; [|split]]].
  - by apply requests_doRequest_body; [apply decode_sends_nothing|].
  - apply requests_doRequest_body; [apply decode_sends_nothing|].
    by apply supported_insert.
  - apply payload_of_no_async_mode.
  - apply lookup_insert_eq.
  - intros k Hk. by apply lookup_insert_ne.
Qed.

(** ** [Search]: the payload *)

Lemma prepared_search_names c o f :
  f ∈ prepared_search c o → jname f ≠ "query" ∧ jname f ≠ "filter_memories".
Proof.
  intros Hf.
  assert (jname f ∈ jname <$> prepared_search c o) as Hin
    by by apply list_elem_of_fmap_2.
  revert Hin. generalize (jname f). intros k.
  unfold prepared_search, SearchOptions_with_org.
  destruct (with_org_cases c (SearchOptions.MemoryOptions o)) as [[_ ->]|[_ ->]];
    destruct (org_name_json_cases c) as [-> | ->];
    intros Hin;
    (split; intros ->; revert Hin; apply (bool_decide_unpack _); vm_compute; exact I).
Qed.

(** The payload of [Search] before the filters are looked at. *)
Lemma Search_payload_inr c query o payload :
  Search_payload c query o = inr payload →
  let o' := default SearchOptions_zero o in
  let F := default ∅ (MemoryOptions.Filters (SearchOptions.MemoryOptions o')) in
  let merged :=
    merge_options (json_object (prepared_search c o')) {[ "query" := AString query ]} in
  let normalized := negb (size F =? 0)%nat && IsDefault (SearchOptions.Version o') in
  supported (AMap (json_object (prepared_search c o'))) = true
  ∧ (∀ k, k ≠ "filters" → k ≠ "filter_memories" → payload !! k = merged !! k)
  ∧ payload !! "filter_memories"
    = (if normalized then Some (ABool true) else merged !! "filter_memories")
  ∧ payload !! "filters"
    = (if (size F =? 0)%nat then None
       else Some (AMap (if IsDefault (SearchOptions.Version o')
                        then fixAPIV2Filters (Some F) else F))).
Proof.
  intros Hpayload o' F merged normalized. revert Hpayload.
  unfold Search_payload. fold o'. cbv zeta.
  change (SearchOptions_json (SearchOptions_with_org c o') ++ org_name_json c)
    with (prepared_search c o').
  change (SearchOptions.Version (SearchOptions_with_org c o'))
    with (SearchOptions.Version o').
  unfold to_map.
  destruct (supported (AMap (json_object (prepared_search c o')))) eqn:Hsup; [|done].
  fold merged.
  assert (merged !! "filters" = if (size F =? 0)%nat then None else Some (AMap F))
    as Hfilters.
  { unfold merged. rewrite merge_options_lookup, search_filters_lookup. cbv zeta.
    fold F. destruct (size F =? 0)%nat; [|done]. by rewrite lookup_singleton_ne. }
  rewrite Hfilters. unfold normalized. clearbody merged.
  destruct (size F =? 0)%nat eqn:Hsize; cbn [negb andb].
  { intros [= <-]. split; [reflexivity|]. split; [intros; reflexivity|].
    split; [reflexivity|exact Hfilters]. }
  destruct (IsDefault (SearchOptions.Version o')).
  - intros [= <-]. split; [reflexivity|]. split; [|split].
    + intros k Hk1 Hk2.
      rewrite lookup_insert_ne by (intros Heq; apply Hk2; by rewrite Heq).
      apply lookup_insert_ne. intros Heq. apply Hk1. by rewrite Heq.
    + apply lookup_insert_eq.
    + rewrite lookup_insert_ne by discriminate. apply lookup_insert_eq.
  - intros [= <-]. split; [reflexivity|]. split; [intros; reflexivity|].
    split; [reflexivity|exact Hfilters].
Qed.


Lemma Search_merged_field c query o f :
  f ∈ prepared_search c o →
  merge_options (json_object (prepared_search c o)) {[ "query" := AString query ]}
    !! jname f
  = if isEmptyValue (jvalue f) then None else Some (jvalue f).
Proof.
  intros Hf. rewrite merge_options_lookup.
  rewrite (json_object_lookup _ _ (prepared_search_NoDup c o) Hf).
  assert (omitempty f = true) as Homit.
  { revert f Hf. apply Forall_forall. unfold prepared_search.
    apply Forall_app. split.
    - unfold SearchOptions_json. apply Forall_app. split.
      + apply Forall_forall. intros f [_ Hf]%list_elem_of_filter. revert f Hf.
        apply Forall_forall. repeat constructor.
      + repeat constructor.
    - destruct (org_name_json_cases c) as [-> | ->]; repeat constructor. }
  unfold present. rewrite Homit. cbn [andb].
  destruct (isEmptyValue (jvalue f)) eqn:Hempty; cbn [negb].
  - rewrite lookup_singleton_ne; [done|].
    intros Heq. by destruct (prepared_search_names c o f Hf).
  - by rewrite (isEmptyValue_not_nil _ Hempty).
Qed.

(** The request of [Search], when one is sent. *)
Lemma Search_request w c query o req :
  req ∈ requests (Search w c query o) →
  ∃ payload,
    Search_payload c query o = inr payload
    ∧ req = Request.mk "POST" (host c +:+ "/v2/memories/search/") (headers c)
              (Some (AMap payload)).
Proof.
  unfold Search. destruct (Search_payload c query o) as [err|payload].
  { intros Hreq. by apply elem_of_nil in Hreq. }
  intros Hreq. exists payload. split; [done|].
  pose proof (doRequest_requests w c "POST" "/v2/memories/search/"
                (Some (AMap payload)) (λ resp, decode w TMemories resp)
                (decode_sends_nothing _ _)) as [Hnone|Hone].
  - rewrite Hnone in Hreq. by apply elem_of_nil in Hreq.
  - rewrite Hone in Hreq. by apply list_elem_of_singleton in Hreq.
Qed.



Lemma search_version_prepared c o :
  JField "version" true (AString (SearchOptions.Version o)) ∈ prepared_search c o
  ∧ JField "enable_graph" true (ABool (SearchOptions.EnableGraph o))
    ∈ prepared_search c o.
Proof.
  unfold prepared_search, SearchOptions_json.
  split; apply elem_of_app; left; apply elem_of_app; right;
    unfold SearchOptions_direct_json; cbn [SearchOptions_with_org SearchOptions.Version
      SearchOptions.EnableGraph]; repeat constructor.
Qed.

(** X11: [Search] sends the [Version] and the [EnableGraph] declared on
    [SearchOptions] itself: the fields of the same name of the embedded
    [MemoryOptions] never reach the body, and an empty [Version] is left out,
    not replaced by the default as in [preparePayload]. *)
Theorem Search_sends_its_own_version w c (query : string) (o : SearchOptions.t) req :
  req ∈ requests (Search w c query (Some o)) →
  ∃ payload,
    Request.Body req = Some (AMap payload)
    ∧ payload !! "version"
      = (if String.eqb (SearchOptions.Version o) "" then None
         else Some (AString (SearchOptions.Version o)))
    ∧ payload !! "enable_graph"
      = (if SearchOptions.EnableGraph o then Some (ABool true) else None).
Proof.
  intros (payload & Hpayload & ->)%Search_request.
  exists payload. split; [done|].
  destruct (Search_payload_inr _ _ _ _ Hpayload) as (_ & Hother & _ & _).
  change (default SearchOptions_zero (Some o)) with o in Hother. cbv zeta in Hother.
  destruct (search_version_prepared c o) as [Hversion Hgraph].
  rewrite !Hother by done.
  pose proof (Search_merged_field c query o _ Hversion) as Hv.
  pose proof (Search_merged_field c query o _ Hgraph) as Hg.
  cbn [jname jvalue isEmptyValue] in Hv, Hg. rewrite Hv, Hg.
  split; [reflexivity|]. by destruct (SearchOptions.EnableGraph o).
Qed.

(** X12: the type assertion [filters.(map[string]any)] of [Search] never
    fails: whatever the options are, [Search] does not panic. *)
Theorem Search_type_assertion_holds w c (query : string) (o : option SearchOptions.t) :
  outcome (Search w c query o) ≠ inl Panic.
Proof.
  unfold Search. destruct (Search_payload c query o) as [err|payload] eqn:Hpayload.
  - cbn. intros [= ->]. revert Hpayload. unfold Search_payload. cbv zeta.
    set (o' := default SearchOptions_zero o).
    change (SearchOptions_json (SearchOptions_with_org c o') ++ org_name_json c)
      with (prepared_search c o').
    destruct (to_map (prepared_search c o')) as [om|] eqn:Hom; [|done].
    unfold to_map in Hom.
    destruct (supported (AMap (json_object (prepared_search c o')))); [|done].
    injection Hom as <-.
    rewrite merge_options_lookup, search_filters_lookup. cbv zeta.
    destruct (size _ =? 0)%nat.
    + by rewrite lookup_singleton_ne.
    + cbn [is_nil]. by destruct (IsDefault _).
  - unfold doRequest. destruct (supported (AMap payload)); [|done].
    unfold send, bind. destruct (Do w _) as [e|resp]; [done|].
    unfold decode, check_status, bind.
    destruct (negb _); [done|]. cbn.
    by destruct (Unmarshal w TMemories _).
Qed.

Lemma Search_type_assertion_holds_witness :
  outcome (Search (answering (Response.mk 200 "[]")) bare_client "q"
             (Some (pinned_search "v2"))) ≠ inl Panic.
Proof. apply Search_type_assertion_holds. Defined.

Lemma Search_sends_its_own_version_witness :
  ∃ payload,
    Request.Body
      (Request.mk "POST" "https://api.mem0.ai/v2/memories/search/"
         [("Authorization", "Token key"); ("Content-Type", "application/json")]
         (Some (AMap {[ "query" := AString "q" ]})))
    = Some (AMap payload)
    ∧ payload !! "version" = None
    ∧ payload !! "enable_graph" = None.
Proof.
  apply (Search_sends_its_own_version (answering (Response.mk 200 "[]")) bare_client
           "q" embedded_only_search).
  vm_compute. left.
Defined.

(** ** [GetAll]: the body *)

Lemma GetAll_request_sent w c o req :
  req ∈ requests (GetAll w c o) →
  req = Request.mk "POST" (host c +:+ "/v2/memories/") (headers c)
          (Some (AMap (json_object (getAllRequest_json (GetAll_request c o))))).
Proof.
  unfold GetAll. cbv zeta. intros Hreq.
  pose proof (doRequest_requests w c "POST" "/v2/memories/"
                (Some (AMap (json_object (getAllRequest_json (GetAll_request c o)))))
                (λ resp, decode w TMemories resp)
                (decode_sends_nothing _ _)) as [Hnone|Hone].
  - rewrite Hnone in Hreq. by apply elem_of_nil in Hreq.
  - rewrite Hone in Hreq. by apply list_elem_of_singleton in Hreq.
Qed.

Lemma getAllRequest_lookup r f :
  f ∈ getAllRequest_json r →
  json_object (getAllRequest_json r) !! jname f
  = if isEmptyValue (jvalue f) then None else Some (jvalue f).
Proof.
  intros Hf. rewrite (json_object_lookup _ _ (getAllRequest_NoDup r) Hf).
  assert (omitempty f = true) as Homit.
  { revert f Hf. apply Forall_forall. repeat constructor. }
  unfold present. rewrite Homit. cbn [andb]. by destruct (isEmptyValue _).
Qed.

(** X13: [GetAll] sends the caller's [OrgID] and [ProjectID] when they are
    set, and falls back on the client's only for the one that is empty, each
    identifier on its own; an identifier that is empty on both sides is left
    out. *)
Theorem GetAll_prefers_the_callers_ids w c (o : SearchOptions.t) req :
  req ∈ requests (GetAll w c (Some o)) →
  let org :=
    if String.eqb (MemoryOptions.OrgID (SearchOptions.MemoryOptions o)) ""
    then organizationID c else MemoryOptions.OrgID (SearchOptions.MemoryOptions o) in
  let project :=
    if String.eqb (MemoryOptions.ProjectID (SearchOptions.MemoryOptions o)) ""
    then projectID c else MemoryOptions.ProjectID (SearchOptions.MemoryOptions o) in
  ∃ body,
    Request.Body req = Some (AMap body)
    ∧ body !! "org_id" = (if String.eqb org "" then None else Some (AString org))
    ∧ body !! "project_id"
      = (if String.eqb project "" then None else Some (AString project)).
Proof.
  intros ->%GetAll_request_sent org project. eexists. split; [reflexivity|].
  set (r := GetAll_request c (Some o)).
  split.
  - apply (getAllRequest_lookup r (JField "org_id" true (AString org))).
    unfold getAllRequest_json. repeat constructor.
  - apply (getAllRequest_lookup r (JField "project_id" true (AString project))).
    unfold getAllRequest_json. repeat constructor.
Qed.

Lemma GetAll_prefers_the_callers_ids_witness :
  ∃ body,
    Request.Body
      (Request.mk "POST" "https://api.mem0.ai/v2/memories/"
         [("Authorization", "Token key"); ("Content-Type", "application/json")]
         (Some (AMap (json_object
                        (getAllRequest_json
                           (GetAll_request org_client
                              (Some (SearchOptions.mk foreign_options false
                                       (Float64 true true "0") 0 false false [] []
                                       false "v1"))))))))
    = Some (AMap body)
    ∧ body !! "org_id" = Some (AString "org-2")
    ∧ body !! "project_id" = Some (AString "proj-2").
Proof.
  apply (GetAll_prefers_the_callers_ids (answering (Response.mk 200 "[]")) org_client
           (SearchOptions.mk foreign_options false (Float64 true true "0") 0 false
              false [] [] false "v1")).
  vm_compute. left.
Defined.

(** X14: the body of a [GetAll] request has no key besides ["page"],
    ["page_size"], ["org_id"], ["project_id"], ["fields"] and ["filters"]: every
    other option is ignored.  Called with nil options [GetAll] sends the empty
    object, without the identifiers of the client. *)
Theorem GetAll_sends_six_fields_at_most w c (o : option SearchOptions.t) req :
  req ∈ requests (GetAll w c o) →
  ∃ body,
    Request.Body req = Some (AMap body)
    ∧ (∀ k, k ∈ dom body → k ∈ getAllRequest_names)
    ∧ match o with None => body = ∅ | Some _ => True end.
Proof.
  intros ->%GetAll_request_sent. eexists. split; [reflexivity|]. split.
  - intros k [v Hk]%elem_of_dom.
    apply json_object_elem in Hk as (f & Hf & <- & _).
    unfold getAllRequest_json in Hf.
    repeat (apply elem_of_cons in Hf as [->|Hf]); [..|by apply elem_of_nil in Hf];
      cbn [jname]; unfold getAllRequest_names; set_solver.
  - by destruct o.
Qed.

Lemma GetAll_sends_six_fields_at_most_witness :
  ∃ body,
    Request.Body
      (Request.mk "POST" "https://api.mem0.ai/v2/memories/"
         [("Authorization", "Token key"); ("Content-Type", "application/json")]
         (Some (AMap ∅)))
    = Some (AMap body)
    ∧ (∀ k, k ∈ dom body → k ∈ getAllRequest_names)
    ∧ body = ∅.
Proof.
  apply (GetAll_sends_six_fields_at_most (answering (Response.mk 200 "[]"))
           org_client None).
  vm_compute. left.
Defined.

(** ** [NewMemoryClient]: the client it returns *)

Lemma NewMemoryClient_inr w options c :
  outcome (NewMemoryClient w options) = inr c →
  let Host :=
    if String.eqb (ClientOptions.Host options) "" then "https://api.mem0.ai"
    else ClientOptions.Host options in
  ∃ resp data,
    Do w (Request.mk "GET" (Host +:+ "/v1/ping/")
            [("Authorization", "Token " +:+ ClientOptions.APIKey options)] None)
    = inr resp
    ∧ Response.StatusCode resp = StatusOK
    ∧ Unmarshal_ping w (Response.Body resp) = Some data
    ∧ Status data = "ok"
    ∧ c = mkClient (ClientOptions.APIKey options) Host
            (ClientOptions.OrganizationName options) (ClientOptions.ProjectName options)
            (ping_OrgID data) (ping_ProjectID data) (UserEmail data).
Proof.
  unfold NewMemoryClient.
  destruct (String.eqb (ClientOptions.APIKey options) ""); [discriminate|].
  cbv zeta. destruct (validateOrgProject _); [discriminate|].
  unfold ping, send, bind, outcome. cbn [apiKey host organizationName projectName].
  destruct (Do w _) as [e|resp]; [discriminate|].
  destruct (Response.StatusCode resp =? StatusOK)%Z eqn:Hstatus; [|discriminate].
  cbn [negb]. destruct (Unmarshal_ping w (Response.Body resp)) as [data|] eqn:Hdata;
    [|discriminate].
  destruct (String.eqb (Status data) "ok") eqn:Hok; [|discriminate].
  cbn. intros [= <-]. exists resp, data.
  split; [reflexivity|]. split; [by apply Z.eqb_eq|].
  split; [exact Hdata|]. split; [by apply String.eqb_eq|reflexivity].
Qed.

(** X15: the client that [NewMemoryClient] returns holds the organization,
    the project and the user of the ping response, not the identifiers of the
    options; it keeps the API key, and its host is the configured one, or
    [https://api.mem0.ai] when none is configured. *)
Theorem NewMemoryClient_takes_ids_from_ping w (options : ClientOptions.t) c :
  outcome (NewMemoryClient w options) = inr c →
  ∃ resp data,
    Do w (ping_request c) = inr resp
    ∧ Unmarshal_ping w (Response.Body resp) = Some data
    ∧ organizationID c = ping_OrgID data
    ∧ projectID c = ping_ProjectID data
    ∧ telemetryID c = UserEmail data
    ∧ apiKey c = ClientOptions.APIKey options
    ∧ host c = (if String.eqb (ClientOptions.Host options) "" then "https://api.mem0.ai"
                else ClientOptions.Host options).
Proof.
  intros (resp & data & Hdo & _ & Hdata & _ & ->)%NewMemoryClient_inr.
  exists resp, data. unfold ping_request. cbn [apiKey host].
  repeat split; [exact Hdo|exact Hdata].
Qed.

Lemma NewMemoryClient_takes_ids_from_ping_witness :
  let c := mkClient "key" "https://api.mem0.ai" "" "" "org-9" "proj-9" "a@b.c" in
  ∃ resp data,
    Do ping_world (ping_request c) = inr resp
    ∧ Unmarshal_ping ping_world (Response.Body resp) = Some data
    ∧ organizationID c = ping_OrgID data
    ∧ projectID c = ping_ProjectID data
    ∧ telemetryID c = UserEmail data
    ∧ apiKey c = "key"
    ∧ host c = "https://api.mem0.ai".
Proof.
  intros c.
  apply (NewMemoryClient_takes_ids_from_ping ping_world
           (ClientOptions.mk "key" "" "" "" "org-1" "proj-1") c).
  vm_compute. reflexivity.
Defined.



(** ** The methods with a query string *)

Lemma query_values_zero jm fields :
  (∀ f, f ∈ fields → zero_value (Value f) = true) → query_values jm fields = ∅.
Proof.
  intros Hzero. apply map_eq. intros k. rewrite lookup_empty.
  apply query_values_lookup_None. intros f s Hf (_ & Hnz & _ & _ & Htext).
  destruct (zero_value_not_emitted jm _ (Hzero f Hf)); congruence.
Qed.

Lemma Values_Encode_empty : Values_Encode ∅ = "".
Proof. vm_compute. reflexivity. Qed.

Lemma requests_nobody_elem {A} w c method path (k : Response.t → M A) req :
  sends_nothing k →
  req ∈ requests (bind (doRequest w c method path None) k) →
  req = Request.mk method (host c +:+ path) (headers c) None.
Proof.
  intros Hk Hreq. rewrite requests_doRequest_nobody in Hreq by done.
  by apply list_elem_of_singleton in Hreq.
Qed.

Lemma DeleteAll_requests w c o :
  requests (DeleteAll w c o)
  = [Request.mk "DELETE"
       (host c +:+ with_query "/v1/memories/" (MemoryOptions_ToQuery (json_Marshal w) o))
       (headers c) None].
Proof. apply requests_doRequest_nobody, check_status_sends_nothing. Qed.

Lemma structToQuery_zero jm fields :
  (∀ f, f ∈ fields → zero_value (Value f) = true) → structToQuery jm fields = "".
Proof.
  intros Hzero. unfold structToQuery.
  rewrite (query_values_zero _ _ Hzero). apply Values_Encode_empty.
Qed.

(** X17: [DeleteAll] called with options that set nothing requests
    [DELETE /v1/memories/] without any query string. *)
Theorem DeleteAll_unset_options_send_no_query w c (o : MemoryOptions.t) req :
  (∀ f, f ∈ MemoryOptions_fields o → zero_value (Value f) = true) →
  req ∈ requests (DeleteAll w c o) →
  req = Request.mk "DELETE" (host c +:+ "/v1/memories/") (headers c) None.
Proof.
  intros Hzero Hreq. rewrite DeleteAll_requests in Hreq.
  apply list_elem_of_singleton in Hreq. subst req.
  unfold MemoryOptions_ToQuery. rewrite (structToQuery_zero _ _ Hzero).
  reflexivity.
Qed.

Lemma DeleteAll_unset_options_send_no_query_witness :
  Request.mk "DELETE" "https://api.mem0.ai/v1/memories/"
    [("Authorization", "Token key"); ("Content-Type", "application/json")] None
  = Request.mk "DELETE" (host bare_client +:+ "/v1/memories/") (headers bare_client) None.
Proof.
  apply (DeleteAll_unset_options_send_no_query (answering (Response.mk 200 ""))
           bare_client MemoryOptions.zero).
  - apply Forall_forall. vm_compute. repeat constructor.
  - vm_compute. left.
Defined.

Lemma omap_scalar_text_strings (l : list string) :
  omap scalar_text (RString <$> l) = l.
Proof. induction l as [|s l IH]; [done|]. cbn. by rewrite IH. Qed.

Lemma Values_Encode_singleton k x :
  Values_Encode {[ k := [x] ]} = encode_pair k x.
Proof.
  unfold Values_Encode, sorted_keys.
  rewrite dom_singleton_L, elements_singleton.
  change (merge_sort string_le [k]) with [k].
  rewrite bind_singleton, lookup_total_singleton, decide_True by done. reflexivity.
Qed.

Lemma ProjectOptions_ToQuery_fields jm s fields :
  ProjectOptions_ToQuery jm (ProjectOptions.mk (s :: fields))
  = "fields%2Comitempty=" +:+ QueryEscape (join "," (s :: fields)).
Proof.
  unfold ProjectOptions_ToQuery, structToQuery, ProjectOptions_fields, query_values.
  cbn [foldl ProjectOptions.Fields]. unfold query_step, rslice.
  cbn [Value Tag IsZero field_text default from_option id length Nat.eqb].
  change (String.eqb "fields,omitempty" "" || String.eqb "fields,omitempty" "-")
    with false. cbv iota.
  rewrite omap_scalar_text_strings, fmap_cons. cbn [length Nat.eqb].
  unfold Values_Add. rewrite lookup_total_empty, app_nil_l, insert_empty.
  rewrite Values_Encode_singleton. reflexivity.
Qed.

(** X18: [GetProject] requests [GET /v1/project/], followed, when [Fields]
    is not empty, by [?fields%2Comitempty=] and the escaped comma-joined
    fields: the whole json tag is the name of the parameter. *)
Theorem GetProject_path w c (fields : list string) req :
  req ∈ requests (GetProject w c (ProjectOptions.mk fields)) →
  Request.Method req = "GET"
  ∧ Request.URL req
    = host c +:+ match fields with
                 | [] => "/v1/project/"
                 | _ => "/v1/project/?fields%2Comitempty="
                        +:+ QueryEscape (join "," fields)
                 end.
Proof.
  intros Hreq. unfold GetProject in Hreq. cbv zeta in Hreq.
  apply requests_nobody_elem in Hreq; [|apply decode_sends_nothing]. subst req.
  cbn [Request.Method Request.URL]. split; [reflexivity|]. f_equal.
  destruct fields as [|s fields]; [reflexivity|].
  rewrite ProjectOptions_ToQuery_fields. reflexivity.
Qed.

Lemma GetProject_path_witness :
  let req := Request.mk "GET" "https://api.mem0.ai/v1/project/?fields%2Comitempty=a%2Cb"
               [("Authorization", "Token key"); ("Content-Type", "application/json")]
               None in
  Request.Method req = "GET"
  ∧ Request.URL req
    = "https://api.mem0.ai" +:+ "/v1/project/?fields%2Comitempty="
      +:+ QueryEscape (join "," ["a"; "b"]).
Proof.
  intros req.
  apply (GetProject_path (answering (Response.mk 200 "{}")) bare_client ["a"; "b"] req).
  vm_compute. left.
Defined.

(** ** What a method returns without a request *)

(** An error that comes from no response. *)
Lemma doRequest_silent {A} w c method path body (k : Response.t → M A) :
  sends_nothing k →
  requests (bind (doRequest w c method path body) k) = [] →
  outcome (bind (doRequest w c method path body) k) = inl JSONError.
Proof.
  intros Hk. unfold doRequest.
  destruct (match body with Some b => supported b | None => true end); [|done].
  by rewrite requests_send.
Qed.

Lemma Search_payload_inl c query o err :
  Search_payload c query o = inl err → err = JSONError.
Proof.
  unfold Search_payload. cbv zeta.
  set (o' := default SearchOptions_zero o).
  change (SearchOptions_json (SearchOptions_with_org c o') ++ org_name_json c)
    with (prepared_search c o').
  destruct (to_map (prepared_search c o')) as [om|] eqn:Hom; [|congruence].
  unfold to_map in Hom.
  destruct (supported (AMap (json_object (prepared_search c o')))); [|done].
  injection Hom as <-.
  rewrite merge_options_lookup, search_filters_lookup. cbv zeta.
  destruct (size _ =? 0)%nat.
  - by rewrite lookup_singleton_ne.
  - cbn [is_nil]. by destruct (IsDefault _).
Qed.

Lemma preparePayload_inl c messages o err :
  preparePayload c messages o = inl err →
  err = JSONError ∨ err = errors_New "invalid messages type".
Proof.
  destruct (messages_of messages) as [msgs|] eqn:Hmsgs.
  - rewrite (preparePayload_accepted _ _ _ _ Hmsgs).
    destruct (encodable o); [done|]. intros [= <-]. by left.
  - unfold preparePayload. rewrite Hmsgs. intros [= <-]. by right.
Qed.

Ltac method_silent :=
  eapply doRequest_silent;
  [first [apply decode_sends_nothing | apply check_status_sends_nothing]|eassumption].

Lemma run_silent w c (k : call) :
  requests (run w c k) = [] →
  ∃ err, outcome (run w c k) = inl err ∧ local_error err.
Proof.
  intros Hreq. destruct k; cbn [run] in *.
  - unfold AddAsync in *.
    destruct (preparePayload _ _ _) as [err|payload] eqn:Hprep.
    + exists err. split; [done|]. by apply preparePayload_inl in Hprep.
    + exists JSONError. split; [|by left]. method_silent.
  - unfold Add in *.
    destruct (preparePayload _ _ _) as [err|payload] eqn:Hprep.
    + exists err. split; [done|]. by apply preparePayload_inl in Hprep.
    + exists JSONError. split; [|by left]. method_silent.
  - exists JSONError. split; [|by left]. unfold Update in *. method_silent.
  - exists JSONError. split; [|by left]. unfold Get in *. method_silent.
  - exists JSONError. split; [|by left]. unfold GetAll in *. method_silent.
  - unfold Search in *.
    destruct (Search_payload _ _ _) as [err|payload] eqn:Hpayload.
    + exists err. split; [done|]. left. by apply Search_payload_inl in Hpayload.
    + exists JSONError. split; [|by left]. method_silent.
  - exists JSONError. split; [|by left]. unfold Delete in *. method_silent.
  - exists JSONError. split; [|by left]. unfold DeleteAll in *. method_silent.
  - exists JSONError. split; [|by left]. unfold History in *. method_silent.
  - exists JSONError. split; [|by left]. unfold Users in *. method_silent.
  - exists JSONError. split; [|by left]. unfold DeleteUser in *. method_silent.
  - exists JSONError. split; [|by left]. unfold DeleteUsers in *. method_silent.
  - exists JSONError. split; [|by left]. unfold BatchUpdate in *. method_silent.
  - exists JSONError. split; [|by left]. unfold BatchDelete in *. method_silent.
  - exists JSONError. split; [|by left]. unfold GetProject in *. method_silent.
  - exists JSONError. split; [|by left]. unfold UpdateProject in *. method_silent.
  - exists JSONError. split; [|by left]. unfold GetWebhooks in *. method_silent.
  - exists JSONError. split; [|by left]. unfold CreateWebhook in *. method_silent.
  - exists JSONError. split; [|by left]. unfold UpdateWebhook in *. method_silent.
  - exists JSONError. split; [|by left]. unfold DeleteWebhook in *. method_silent.
  - exists JSONError. split; [|by left]. unfold Feedback in *. method_silent.
  - exists JSONError. split; [|by left]. unfold GetEvent in *. method_silent.
  - by rewrite GetEvents_requests in Hreq.
Qed.

Lemma run_answered w c (k : call) :
  (∃ err, requests (run w c k) = [] ∧ outcome (run w c k) = inl err ∧ local_error err)
  ∨ (∃ req, requests (run w c k) = [req]
            ∧ outcome (run w c k) = settle w k (Do w req)).
Proof.
  destruct (run_requests w c k) as [Hnone|(method & path & body & Hone & _)].
  - left. destruct (run_silent w c k Hnone) as (err & Hout & Hlocal). by exists err.
  - right. eexists. split; [exact Hone|]. by apply run_outcome.
Qed.

(** X19: a method returns a result only when it made its request and the
    answer had status 200; any other status, 201 and 204 included, is a
    failure. *)
Theorem result_requires_status_200 w c (k : call) v :
  outcome (run w c k) = inr v →
  ∃ req resp,
    requests (run w c k) = [req] ∧ Do w req = inr resp
    ∧ Response.StatusCode resp = StatusOK.
Proof.
  intros Hout.
  destruct (run_answered w c k) as [(err & _ & Herr & _)|(req & Hreq & Hsettle)].
  { congruence. }
  rewrite Hsettle in Hout. exists req. unfold settle in Hout.
  destruct (Do w req) as [e|resp]; [discriminate|]. exists resp.
  split; [exact Hreq|]. split; [reflexivity|].
  destruct (Response.StatusCode resp =? StatusOK)%Z eqn:Hstatus; [|discriminate].
  by apply Z.eqb_eq.
Qed.

Lemma result_requires_status_200_witness :
  let w := answering (Response.mk 200 "[]") in
  ∃ req resp,
    requests (run w bare_client CallUsers) = [req] ∧ Do w req = inr resp
    ∧ Response.StatusCode resp = StatusOK.
Proof.
  intros w. apply (result_requires_status_200 w bare_client CallUsers (AString "[]")).
  vm_compute. reflexivity.
Defined.

Lemma transport_failure_not_APIError k e msg : transport_failure k e ≠ APIError msg.
Proof. by destruct k. Qed.

(** X20: a method returns an [APIError] only for a response whose status is
    not 200, and the message is "API request failed with status ", the
    status, ": " and the body of that response. *)
Theorem APIError_reports_a_response w c (k : call) msg :
  outcome (run w c k) = inl (APIError msg) →
  ∃ req resp,
    requests (run w c k) = [req] ∧ Do w req = inr resp
    ∧ Response.StatusCode resp ≠ StatusOK
    ∧ msg = "API request failed with status "
            +:+ FormatInt (Response.StatusCode resp) +:+ ": " +:+ Response.Body resp.
Proof.
  intros Hout.
  destruct (run_answered w c k) as [(err & _ & Herr & Hlocal)|(req & Hreq & Hsettle)].
  { rewrite Herr in Hout. injection Hout as ->. by destruct Hlocal. }
  rewrite Hsettle in Hout. exists req. unfold settle in Hout.
  destruct (Do w req) as [e|resp].
  { injection Hout as Hout. by apply transport_failure_not_APIError in Hout. }
  exists resp. split; [exact Hreq|]. split; [reflexivity|].
  destruct (Response.StatusCode resp =? StatusOK)%Z eqn:Hstatus.
  - exfalso. destruct (decodes_into k); [|discriminate].
    by destruct (Unmarshal w _ _).
  - split; [by apply Z.eqb_neq|]. unfold api_error in Hout. by injection Hout as <-.
Qed.

Lemma APIError_reports_a_response_witness :
  let w := answering (Response.mk 204 "") in
  ∃ req resp,
    requests (run w bare_client (CallDelete "m1")) = [req] ∧ Do w req = inr resp
    ∧ Response.StatusCode resp ≠ StatusOK
    ∧ "API request failed with status 204: "
      = "API request failed with status "
        +:+ FormatInt (Response.StatusCode resp) +:+ ": " +:+ Response.Body resp.
Proof.
  intros w.
  apply (APIError_reports_a_response w bare_client (CallDelete "m1")
           "API request failed with status 204: ").
  vm_compute. reflexivity.
Defined.

Lemma org_id_prepared_search c o :
  both_set (organizationID c) (projectID c) = true →
  JField "org_id" true (AString (organizationID c)) ∈ prepared_search c o
  ∧ JField "project_id" true (AString (projectID c)) ∈ prepared_search c o.
Proof.
  intros Hboth. unfold prepared_search, SearchOptions_json.
  cbn [SearchOptions_with_org SearchOptions.MemoryOptions].
  destruct (with_org_cases c (SearchOptions.MemoryOptions o)) as [[Hno _]|[_ ->]];
    [congruence|].
  split; apply elem_of_app; left; apply elem_of_app; left;
    apply list_elem_of_filter; (split; [apply (bool_decide_unpack _); vm_compute; exact I|]);
    unfold MemoryOptions_json; repeat constructor.
Qed.

(** X21: when the client knows its organization and its project, the body of
    a [Search] request holds the client's identifiers under ["org_id"] and
    ["project_id"], whatever the options say. *)
Theorem Search_client_ids_win w c (query : string) (o : option SearchOptions.t) req :
  organizationID c ≠ "" → projectID c ≠ "" →
  req ∈ requests (Search w c query o) →
  ∃ payload,
    Request.Body req = Some (AMap payload)
    ∧ payload !! "org_id" = Some (AString (organizationID c))
    ∧ payload !! "project_id" = Some (AString (projectID c)).
Proof.
  intros Horg Hproj (payload & Hpayload & ->)%Search_request.
  exists payload. split; [done|].
  destruct (Search_payload_inr _ _ _ _ Hpayload) as (_ & Hother & _ & _).
  cbv zeta in Hother.
  assert (both_set (organizationID c) (projectID c) = true) as Hboth.
  { unfold both_set, nonempty. apply andb_true_iff.
    split; apply negb_true_iff, String.eqb_neq; done. }
  destruct (org_id_prepared_search c (default SearchOptions_zero o) Hboth) as [Ho Hp].
  rewrite !Hother by done.
  pose proof (Search_merged_field c query _ _ Ho) as Hvo.
  pose proof (Search_merged_field c query _ _ Hp) as Hvp.
  cbn [jname jvalue isEmptyValue] in Hvo, Hvp. rewrite Hvo, Hvp.
  apply String.eqb_neq in Horg, Hproj. by rewrite Horg, Hproj.
Qed.

Lemma Search_client_ids_win_witness :
  ∃ payload,
    Request.Body
      (Request.mk "POST" "https://api.mem0.ai/v2/memories/search/"
         [("Authorization", "Token key"); ("Content-Type", "application/json")]
         (Some (AMap (<["project_id" := AString "proj-1"]>
                        (<["org_id" := AString "org-1"]>
                           {[ "query" := AString "q" ]})))))
    = Some (AMap payload)
    ∧ payload !! "org_id" = Some (AString "org-1")
    ∧ payload !! "project_id" = Some (AString "proj-1").
Proof.
  apply (Search_client_ids_win (answering (Response.mk 200 "[]")) org_client "q" None).
  - discriminate.
  - discriminate.
  - vm_compute. left.
Defined.
